(** * Mehr Guard phishing model: feature extraction and logistic regression

    A shallow embedding of [scripts/generate_model.py].

    - A Python [str] is a [string]; a character is a code point below 256.
    - A Python [int] is a [Z].
    - A Python or numpy float is a real number: IEEE rounding and overflow
      are not modelled, arithmetic is exact.
    - A one-dimensional [ndarray] is a [list R]; a two-dimensional one is a
      record carrying its shape next to its rows.
    - Methods of [LogisticRegressionModel] are computations in a state and
      exception monad over the object's two attributes. *)

From Stdlib Require Import String Ascii List ZArith Bool Arith Lia.
From Stdlib Require Import Reals Lra Permutation.
Import ListNotations.

(** ** Python [str] methods used by the script *)

Module Py.
Local Open Scope string_scope.

(** [len(s)] *)
Definition len (s : string) : Z := Z.of_nat (String.length s).

(** [s.startswith(p)] *)
Definition startswith (s p : string) : bool := String.prefix p s.

(** [sub in s] *)
Fixpoint contains (sub s : string) : bool :=
  String.prefix sub s ||
  match s with
  | EmptyString => false
  | String _ s' => contains sub s'
  end.

(** [s.find(sub)]: index of the first occurrence, [-1] when there is none. *)
Fixpoint find_from (sub s : string) (i : Z) : Z :=
  if String.prefix sub s then i
  else match s with
       | EmptyString => (-1)%Z
       | String _ s' => find_from sub s' (i + 1)%Z
       end.

Definition find (s sub : string) : Z := find_from sub s 0%Z.

(** Left-to-right scan for non-overlapping occurrences of a non-empty [sub];
    [skip] counts the characters of the current occurrence still to pass. *)
Fixpoint count_scan (sub : string) (skip : nat) (s : string) : nat :=
  match s with
  | EmptyString => O
  | String _ s' =>
      match skip with
      | S k => count_scan sub k s'
      | O => if String.prefix sub s
             then S (count_scan sub (String.length sub - 1) s')
             else count_scan sub O s'
      end
  end.

(** [s.count(sub)] *)
Definition count (s sub : string) : Z :=
  if (sub =? "")%string then Z.of_nat (S (String.length s))
  else Z.of_nat (count_scan sub O s).

Fixpoint replace_scan (old new : string) (skip : nat) (s : string) : string :=
  match s with
  | EmptyString => EmptyString
  | String c s' =>
      match skip with
      | S k => replace_scan old new k s'
      | O => if String.prefix old s
             then new ++ replace_scan old new (String.length old - 1) s'
             else String c (replace_scan old new O s')
      end
  end.

Fixpoint intersperse (new s : string) : string :=
  match s with
  | EmptyString => new
  | String c s' => new ++ String c (intersperse new s')
  end.

(** [s.replace(old, new)]: every non-overlapping occurrence, left to right. *)
Definition replace (s old new : string) : string :=
  if (old =? "")%string then intersperse new s
  else replace_scan old new O s.

(** [s.split(sep)] for a non-empty separator ([sep = ""] raises in Python and
    is never passed by the script). *)
Fixpoint split_scan (sep : string) (skip : nat) (s : string) : list string :=
  match s with
  | EmptyString => [EmptyString]
  | String c s' =>
      match skip with
      | S k => split_scan sep k s'
      | O => if String.prefix sep s
             then EmptyString :: split_scan sep (String.length sep - 1) s'
             else match split_scan sep O s' with
                  | h :: t => String c h :: t
                  | [] => [String c EmptyString]
                  end
      end
  end.

Definition split (s sep : string) : list string := split_scan sep O s.

(** [l[0]] and [l[-1]] on the non-empty list [split] returns. *)
Definition first (l : list string) : string := hd EmptyString l.
Definition last (l : list string) : string := List.last l EmptyString.

(** [c.isdigit()] for a code point below 256: the ASCII digits and the
    superscripts U+00B2, U+00B3, U+00B9. *)
Definition isdigit_char (c : ascii) : bool :=
  let n := nat_of_ascii c in
  ((48 <=? n)%nat && (n <=? 57)%nat) || (n =? 178)%nat || (n =? 179)%nat
  || (n =? 185)%nat.

Fixpoint all_chars (p : ascii -> bool) (s : string) : bool :=
  match s with
  | EmptyString => true
  | String c s' => p c && all_chars p s'
  end.

(** [s.isdigit()]: false on the empty string. *)
Definition isdigit (s : string) : bool :=
  negb (s =? "")%string && all_chars isdigit_char s.

(** A slice bound the way Python normalises it: negative counts from the
    end, then clamp to [0, len]. *)
Definition slice_bound (s : string) (i : Z) : nat :=
  Z.to_nat (if (i <? 0)%Z then Z.max (i + len s) 0 else Z.min i (len s)).

(** [s[:e]] *)
Definition slice_to (s : string) (e : Z) : string :=
  substring 0 (slice_bound s e) s.

(** [s[b:]] *)
Definition slice_from (s : string) (b : Z) : string :=
  substring (slice_bound s b) (String.length s - slice_bound s b) s.

End Py.

(** ** The fragment of [re] the script needs

    Match success of a pattern without groups is language membership, decided
    here with Brzozowski derivatives. *)

Module Re.

Inductive regex : Type :=
| Never : regex
| Empty : regex
| Class : (ascii -> bool) -> regex
| Seq : regex -> regex -> regex
| Or : regex -> regex -> regex.

Fixpoint nullable (r : regex) : bool :=
  match r with
  | Never => false
  | Empty => true
  | Class _ => false
  | Seq r1 r2 => nullable r1 && nullable r2
  | Or r1 r2 => nullable r1 || nullable r2
  end.

Fixpoint deriv (c : ascii) (r : regex) : regex :=
  match r with
  | Never => Never
  | Empty => Never
  | Class p => if p c then Empty else Never
  | Seq r1 r2 =>
      if nullable r1 then Or (Seq (deriv c r1) r2) (deriv c r2)
      else Seq (deriv c r1) r2
  | Or r1 r2 => Or (deriv c r1) (deriv c r2)
  end.

Fixpoint fullmatch (r : regex) (s : string) : bool :=
  match s with
  | EmptyString => nullable r
  | String c s' => fullmatch (deriv c r) s'
  end.

(** [\d] on code points below 256: the ASCII digits. *)
Definition digit (c : ascii) : bool :=
  let n := nat_of_ascii c in (48 <=? n)%nat && (n <=? 57)%nat.

(** [\.] *)
Definition dot : regex := Class (Ascii.eqb "."%char).

(** [r{1,3}] *)
Definition rep_1_3 (r : regex) : regex :=
  Seq r (Or Empty (Seq r (Or Empty r))).

(** A final [$]: the end of the string, or just before a newline that ends
    the string. *)
Definition dollar : regex := Or Empty (Class (Ascii.eqb "010"%char)).

(** [re.match(pattern, s)] for a pattern that starts with [^] and ends with
    [$] (written as [dollar] in the pattern): the whole of [s] is consumed. *)
Definition match_ (pattern : regex) (s : string) : bool := fullmatch pattern s.

End Re.

(** ** Feature extraction *)

Local Open Scope string_scope.
Local Open Scope R_scope.

(** [math.log2] *)
Definition log2 (x : R) : R := ln x / ln 2.

(** The [freq] dictionary of [calculate_entropy]: keys in insertion order. *)
Definition dict : Type := list (ascii * Z).

Fixpoint dict_get (d : dict) (k : ascii) (default : Z) : Z :=
  match d with
  | [] => default
  | (k', v) :: d' => if Ascii.eqb k' k then v else dict_get d' k default
  end.

Fixpoint dict_set (d : dict) (k : ascii) (v : Z) : dict :=
  match d with
  | [] => [(k, v)]
  | (k', v') :: d' =>
      if Ascii.eqb k' k then (k', v) :: d' else (k', v') :: dict_set d' k v
  end.

Definition dict_keys (d : dict) : list ascii := map fst d.
Definition dict_values (d : dict) : list Z := map snd d.

(** [freq[char] = freq.get(char, 0) + 1] *)
Definition freq_step (freq : dict) (char : ascii) : dict :=
  dict_set freq char (dict_get freq char 0 + 1)%Z.

(** The first loop of [calculate_entropy]. *)
Definition char_freq (text : string) : dict :=
  fold_left freq_step (list_ascii_of_string text) [].

(** The second loop of [calculate_entropy], from a starting [entropy]. *)
Definition entropy_loop (length : Z) (counts : list Z) (entropy : R) : R :=
  fold_left (fun entropy count =>
               let p := IZR count / IZR length in
               entropy - p * log2 p)
            counts entropy.

Definition calculate_entropy (text : string) : R :=
  if (text =? "")%string then 0
  else
    let freq := char_freq text in
    let length := Py.len text in
    entropy_loop length (dict_values freq) 0.

(** [np.zeros(n)] *)
Definition zeros (n : nat) : list R := repeat 0 n.

(** [a[i] = v] for an index inside the array (numpy raises [IndexError]
    outside; the script only writes the literal indices 0 to 14 of an array
    of 15). *)
Fixpoint setitem (a : list R) (i : nat) (v : R) : list R :=
  match a, i with
  | [], _ => []
  | _ :: t, O => v :: t
  | h :: t, S j => h :: setitem t j v
  end.

(** [1.0 if b else 0.0] *)
Definition flag (b : bool) : R := if b then 1 else 0.

Definition protocol (url : string) : string :=
  if Py.startswith url "https://" then "https" else "http".

Definition clean_url (url : string) : string :=
  Py.replace (Py.replace url "https://" "") "http://" "".

Definition host_end (url : string) : Z :=
  let clean_url := clean_url url in
  Z.min
    (if Py.contains "/" clean_url then Py.find clean_url "/"
     else Py.len clean_url)
    (if Py.contains "?" clean_url then Py.find clean_url "?"
     else Py.len clean_url).

Definition host (url : string) : string :=
  Py.slice_to (clean_url url) (host_end url).

Definition path_and_query (url : string) : string :=
  Py.slice_from (clean_url url) (host_end url).

Definition path (url : string) : string :=
  let path_and_query := path_and_query url in
  if Py.contains "?" path_and_query
  then Py.first (Py.split path_and_query "?")
  else path_and_query.

Definition subdomain_count (url : string) : Z :=
  Z.max (Py.count (host url) "." - 1) 0.

(** [^\d{1,3}\.\d{1,3}\.\d{1,3}\.\d{1,3}$] *)
Definition ip_pattern : Re.regex :=
  let d := Re.rep_1_3 (Re.Class Re.digit) in
  Re.Seq d (Re.Seq Re.dot (Re.Seq d (Re.Seq Re.dot
    (Re.Seq d (Re.Seq Re.dot (Re.Seq d Re.dollar)))))).

Definition query_count (url : string) : Z :=
  (Py.count (path_and_query url) "&"
   + (if Py.contains "?" (path_and_query url) then 1 else 0))%Z.

Definition has_port (url : string) : bool :=
  Py.contains ":" (host url)
  && Py.isdigit (Py.last (Py.split (host url) ":")).

Definition shorteners : list string :=
  ["bit.ly"; "tinyurl.com"; "t.co"; "goo.gl"; "ow.ly"].

Definition suspicious_tlds : list string :=
  ["tk"; "ml"; "ga"; "cf"; "gq"; "xyz"; "icu"; "top"].

Definition tld (url : string) : string :=
  if Py.contains "." (host url) then Py.last (Py.split (host url) ".")
  else "".

(** [x in set_of_strings] *)
Definition in_set (x : string) (s : list string) : bool :=
  existsb (String.eqb x) s.

Definition extract_features (url : string) : list R :=
  let features := zeros 15 in
  let features := setitem features 0 (Rmin (IZR (Py.len url) / 500) 1) in
  let features := setitem features 1 (Rmin (IZR (Py.len (host url)) / 100) 1) in
  let features := setitem features 2 (Rmin (IZR (Py.len (path url)) / 200) 1) in
  let features := setitem features 3 (Rmin (IZR (subdomain_count url) / 5) 1) in
  let features := setitem features 4 (flag (protocol url =? "https")%string) in
  let features :=
    setitem features 5
      (flag (Re.match_ ip_pattern (Py.first (Py.split (host url) ":")))) in
  let features :=
    setitem features 6 (Rmin (calculate_entropy (host url) / 5) 1) in
  let features :=
    setitem features 7 (Rmin (calculate_entropy (path url) / 5) 1) in
  let features := setitem features 8 (Rmin (IZR (query_count url) / 10) 1) in
  let features := setitem features 9 (flag (Py.contains "@" url)) in
  let features := setitem features 10 (Rmin (IZR (Py.count url ".") / 10) 1) in
  let features := setitem features 11 (Rmin (IZR (Py.count url "-") / 10) 1) in
  let features := setitem features 12 (flag (has_port url)) in
  let features :=
    setitem features 13
      (flag (existsb (fun s => Py.contains s (host url)) shorteners)) in
  let features := setitem features 14 (flag (in_set (tld url) suspicious_tlds)) in
  features.

(** ** numpy operations used by the classifier *)

Inductive exn : Type :=
| ZeroDivisionError : exn
| ValueError : exn.

(** The outcome of an expression that may raise. *)
Definition result (A : Type) : Type := (exn + A)%type.

(** [a / b] on two Python ints. *)
Definition truediv (a b : Z) : result R :=
  if (b =? 0)%Z then inl ZeroDivisionError else inr (IZR a / IZR b).

Module Np.

(** A two-dimensional array: [shape] is [(rows, columns)]. *)
Record ndarray2 : Type := mk_ndarray2 {
  shape : nat * nat;
  rows : list (list R)
}.

Definition wf (X : ndarray2) : Prop :=
  length (rows X) = fst (shape X) /\
  Forall (fun r => length r = snd (shape X)) (rows X).

Definition sum (a : list R) : R := fold_right Rplus 0 a.

Definition vdot (a b : list R) : R :=
  sum (map (fun xy => fst xy * snd xy) (combine a b)).

(** [np.dot(a, b)] on two vectors. *)
Definition dot (a b : list R) : result R :=
  if (length a =? length b)%nat then inr (vdot a b) else inl ValueError.

(** [np.dot(X, v)] on a matrix and a vector. *)
Definition matvec (X : ndarray2) (v : list R) : result (list R) :=
  if (snd (shape X) =? length v)%nat
  then inr (map (fun r => vdot r v) (rows X))
  else inl ValueError.

(** [X.T] *)
Definition T (X : ndarray2) : ndarray2 :=
  {| shape := (snd (shape X), fst (shape X));
     rows := map (fun j => map (fun r => nth j r 0) (rows X))
                 (seq 0 (snd (shape X))) |}.

(** [a + c] with a scalar [c]. *)
Definition add_scalar (a : list R) (c : R) : list R :=
  map (fun x => x + c) a.

(** [c * a] with a scalar [c]. *)
Definition scale (c : R) (a : list R) : list R := map (Rmult c) a.

Definition zip_sub (a b : list R) : list R :=
  map (fun xy => fst xy - snd xy) (combine a b).

(** [a - b] on two vectors, with numpy's broadcasting: equal lengths, or one
    side of length one stretched to the other. *)
Definition sub (a b : list R) : result (list R) :=
  if (length a =? length b)%nat then inr (zip_sub a b)
  else match a, b with
       | [x], _ => inr (map (fun v => x - v) b)
       | _, [v] => inr (map (fun x => x - v) a)
       | _, _ => inl ValueError
       end.

(** [a -= b]: the right side is broadcast to the shape of [a]. *)
Definition isub (a b : list R) : result (list R) :=
  if (length a =? length b)%nat then inr (zip_sub a b)
  else match b with
       | [v] => inr (map (fun x => x - v) a)
       | _ => inl ValueError
       end.

End Np.

(** ** The classifier *)

Definition sigmoid (x : R) : R := 1 / (1 + exp (- x)).

(** The attributes of a [LogisticRegressionModel]. *)
Record Model : Type := mk_Model {
  weights : list R;
  bias : R
}.

(** A method body: it reads and writes [self] and may raise; the state at
    the raise is kept. *)
Definition M (A : Type) : Type := Model -> result A * Model.

Definition ret {A : Type} (a : A) : M A := fun self => (inr a, self).

Definition bind {A B : Type} (m : M A) (f : A -> M B) : M B :=
  fun self =>
    match m self with
    | (inl e, self') => (inl e, self')
    | (inr a, self') => f a self'
    end.

Definition lift {A : Type} (r : result A) : M A := fun self => (r, self).

Definition get_weights : M (list R) := fun self => (inr (weights self), self).
Definition get_bias : M R := fun self => (inr (bias self), self).

Definition set_weights (w : list R) : M unit :=
  fun self => (inr tt, {| weights := w; bias := bias self |}).

Definition set_bias (b : R) : M unit :=
  fun self => (inr tt, {| weights := weights self; bias := b |}).

Notation "x <- m ;; k" := (bind m (fun x => k))
  (at level 61, m at next level, right associativity).
Notation "m ;; k" := (bind m (fun _ => k))
  (at level 61, right associativity).

(** [for _ in range(n): body] *)
Fixpoint for_range (n : nat) (body : M unit) : M unit :=
  match n with
  | O => ret tt
  | S k => body ;; for_range k body
  end.

(** [__init__(weights=None, bias=0.0)] *)
Definition init (w : option (list R)) (b : R) : Model :=
  {| weights := match w with Some w' => w' | None => zeros 15 end;
     bias := b |}.

Definition predict (features : list R) : M R :=
  w <- get_weights ;;
  d <- lift (Np.dot w features) ;;
  b <- get_bias ;;
  ret (sigmoid (d + b)).

(** One pass of the loop in [fit]. In [(1 / n_samples) * np.dot(...)] the
    quotient is evaluated before the product's right operand. *)
Definition epoch (X : Np.ndarray2) (y : list R) (n_samples : nat) (lr : R)
  : M unit :=
  w <- get_weights ;;
  b <- get_bias ;;
  xw <- lift (Np.matvec X w) ;;
  let z := Np.add_scalar xw b in
  let predictions := map sigmoid z in
  c1 <- lift (truediv 1 (Z.of_nat n_samples)) ;;
  e1 <- lift (Np.sub predictions y) ;;
  g <- lift (Np.matvec (Np.T X) e1) ;;
  let dw := Np.scale c1 g in
  c2 <- lift (truediv 1 (Z.of_nat n_samples)) ;;
  e2 <- lift (Np.sub predictions y) ;;
  let db := c2 * Np.sum e2 in
  w <- get_weights ;;
  w' <- lift (Np.isub w (Np.scale lr dw)) ;;
  set_weights w' ;;
  b <- get_bias ;;
  set_bias (b - lr * db).

Definition fit (X : Np.ndarray2) (y : list R) (epochs : Z) (lr : R) : M unit :=
  let '(n_samples, n_features) := Np.shape X in
  set_weights (zeros n_features) ;;
  set_bias 0 ;;
  for_range (Z.to_nat epochs) (epoch X y n_samples lr).

(** The attributes [fit] starts its loop from. *)
Definition fresh (n_features : nat) : Model :=
  {| weights := zeros n_features; bias := 0 |}.

(** The predictions the forward pass of [epoch] computes. *)
Definition forward (X : Np.ndarray2) (w : list R) (b : R) : list R :=
  map sigmoid (Np.add_scalar (map (fun r => Np.vdot r w) (Np.rows X)) b).

(** The attributes [epoch] leaves when nothing raises, from the two
    evaluations [e1] and [e2] of [predictions - y]. *)
Definition descend (X : Np.ndarray2) (lr : R) (e1 e2 : list R) (self : Model)
  : Model :=
  let n_samples := fst (Np.shape X) in
  {| weights :=
       Np.zip_sub (weights self)
         (Np.scale lr
            (Np.scale (IZR 1 / IZR (Z.of_nat n_samples))
               (map (fun r => Np.vdot r e1) (Np.rows (Np.T X)))));
     bias :=
       bias self - lr * (IZR 1 / IZR (Z.of_nat n_samples) * Np.sum e2) |}.

(** [descend] when labels and predictions have the same length. *)
Definition epoch_state (X : Np.ndarray2) (y : list R) (lr : R) (self : Model)
  : Model :=
  let error := Np.zip_sub (forward X (weights self) (bias self)) y in
  descend X lr error error self.

(** The values [to_json] builds: floats, lists and a dict with its keys in
    insertion order. *)
#[local] Set Warnings "-register-all".
Inductive pyval : Type :=
| PyFloat : R -> pyval
| PyList : list pyval -> pyval
| PyDict : list (string * pyval) -> pyval.

Definition to_json : M pyval :=
  w <- get_weights ;;
  b <- get_bias ;;
  ret (PyDict [("weights", PyList (map PyFloat w)); ("bias", PyFloat b)]).

(** ** Reference definitions the code is compared with *)

(** Stripping one leading scheme literal, as the specification words it. *)
Definition strip_scheme_spec (url : string) : string :=
  if String.prefix "https://" url then substring 8 (String.length url - 8) url
  else if String.prefix "http://" url
       then substring 7 (String.length url - 7) url
       else url.

(** [deleted lit s r]: [r] is [s] with every occurrence of [lit] deleted,
    going from the left: either [lit] does not occur in [s], or [s] is a
    part without [lit], then [lit], then a rest that is treated the same
    way. *)
Inductive deleted (lit : string) : string -> string -> Prop :=
| deleted_none : forall s,
    Py.contains lit s = false -> deleted lit s s
| deleted_first : forall a b r,
    Py.contains lit a = false ->
    deleted lit b r ->
    deleted lit (a ++ lit ++ b) (a ++ r).

(** The first character of [lit] does not come back later in [lit], so two
    occurrences of [lit] cannot overlap. *)
Definition head_unique (lit : string) : Prop :=
  match lit with
  | EmptyString => False
  | String h t => Py.contains (String h EmptyString) t = false
  end.

(** Dropping what follows the last [:] of a host, if there is one. *)
Fixpoint strip_port_spec (h : string) : string :=
  match h with
  | EmptyString => EmptyString
  | String c h' =>
      if Py.contains ":" h' then String c (strip_port_spec h')
      else if Ascii.eqb c ":" then EmptyString else h
  end.

(** One iteration of full-batch gradient descent, as the specification
    lists its six steps, on an [n]-row matrix of [k] columns. *)
Definition spec_epoch (n k : nat) (X : list (list R)) (y : list R) (lr : R)
  (wb : list R * R) : list R * R :=
  let (w, b) := wb in
  let z := map (fun i => Np.vdot (nth i X []) w + b) (seq 0 n) in
  let predictions := map sigmoid z in
  let error := map (fun i => nth i predictions 0 - nth i y 0) (seq 0 n) in
  let dw :=
    map (fun j =>
           (1 / INR n)
           * Np.sum (map (fun i => nth j (nth i X []) 0 * nth i error 0)
                         (seq 0 n)))
        (seq 0 k) in
  let db := (1 / INR n) * Np.sum error in
  (map (fun j => nth j w 0 - lr * nth j dw 0) (seq 0 k), b - lr * db).

Definition spec_fit (n k : nat) (X : list (list R)) (y : list R) (e : nat)
  (lr : R) : list R * R :=
  Nat.iter e (spec_epoch n k X y lr) (zeros k, 0).

(** Modelled from the spec: the import side of the export/import round trip.
    The reader belongs to the external scoring runtime; it takes the two
    fields by name. *)
Fixpoint dict_lookup (k : string) (d : list (string * pyval)) : option pyval :=
  match d with
  | [] => None
  | (k', v) :: d' => if (k' =? k)%string then Some v else dict_lookup k d'
  end.

Fixpoint floats_of (l : list pyval) : option (list R) :=
  match l with
  | [] => Some []
  | PyFloat r :: l' => option_map (cons r) (floats_of l')
  | _ :: _ => None
  end.

Definition from_json (v : pyval) : option Model :=
  match v with
  | PyDict d =>
      match dict_lookup "weights" d, dict_lookup "bias" d with
      | Some (PyList l), Some (PyFloat b) =>
          option_map (fun w => {| weights := w; bias := b |}) (floats_of l)
      | _, _ => None
      end
  | _ => None
  end.


(** Small training sets used as examples. *)
Definition no_rows : Np.ndarray2 := Np.mk_ndarray2 (0%nat, 15%nat) [].

Definition one_row : Np.ndarray2 := Np.mk_ndarray2 (1%nat, 15%nat) [zeros 15].



Definition two_by_two : Np.ndarray2 :=
  Np.mk_ndarray2 (2%nat, 2%nat) [[1; 0]; [0; 1]].

(** ** The dataset synthesizer and the training run of [main] *)

(** The state of [np.random]: the draws still to come. *)
Definition Rng : Type := nat -> nat.

(** [np.random.choice(patterns)] on a non-empty list: the next draw selects
    the entry, the later draws are the new state. *)
Definition choice (patterns : list string) (g : Rng) : string * Rng :=
  (nth (g 0%nat mod length patterns) patterns "", fun i => g (S i)).

Definition safe_patterns : list string :=
  ["https://www.google.com/search?q=test";
   "https://github.com/user/repo";
   "https://www.amazon.com/dp/B08ABC123";
   "https://stackoverflow.com/questions/123";
   "https://en.wikipedia.org/wiki/Python"].

Definition phishing_patterns : list string :=
  ["http://192.168.1.1/login.php";
   "https://paypa1-secure.tk/verify";
   "http://amaz0n.ml/tracking";
   "https://secure.bank.com.evil.ga/login";
   "http://bit.ly/x3Yz123"].

(** The loop of [generate_synthetic_dataset], on the lists [X] and [y] it
    appends to. *)
Fixpoint dataset_loop (iterations : nat) (g : Rng) (X : list (list R))
  (y : list R) : list (list R) * list R * Rng :=
  match iterations with
  | O => (X, y, g)
  | S rest =>
      let (url, g) := choice safe_patterns g in
      let X := (X ++ [extract_features url])%list in
      let y := (y ++ [0])%list in
      let (url, g) := choice phishing_patterns g in
      let X := (X ++ [extract_features url])%list in
      let y := (y ++ [1])%list in
      dataset_loop rest g X y
  end.

(** An array of one or of two dimensions. *)
Inductive ndarray : Type :=
| Arr1 : list R -> ndarray
| Arr2 : Np.ndarray2 -> ndarray.

(** [np.array(rows)] on a list of vectors of one length: a matrix, except
    that the empty list gives an empty one-dimensional array. *)
Definition np_array (rows : list (list R)) : ndarray :=
  match rows with
  | [] => Arr1 []
  | r :: _ => Arr2 (Np.mk_ndarray2 (length rows, length r) rows)
  end.

(** [n_samples // 2] is Python's floor division; a negative range is
    empty. *)
Definition generate_synthetic_dataset (n_samples : Z) (g : Rng)
  : ndarray * list R * Rng :=
  let '(X, y, g) := dataset_loop (Z.to_nat (n_samples / 2)) g [] [] in
  (np_array X, y, g).

(** [fit] on an array of either dimension: unpacking the shape of a
    one-dimensional array into two names raises before anything is
    assigned. *)
Definition fit_ndarray (X : ndarray) (y : list R) (epochs : Z) (lr : R)
  : M unit :=
  match X with
  | Arr2 X2 => fit X2 y epochs lr
  | Arr1 _ => lift (inl ValueError)
  end.

(** The training and export steps of [main], without its printing, its
    evaluation pass and its file writing. *)
Definition main_training (g : Rng) : result pyval * Model :=
  let '(X_train, y_train, _) := generate_synthetic_dataset 1000 g in
  (fit_ndarray X_train y_train 2000 (1 / 2) ;; to_json) (init None 0).

(** ["PHISHING" if prob > 0.5 else "SAFE"] *)
Definition verdict (prob : R) : string :=
  if Rgt_dec prob (1 / 2) then "PHISHING" else "SAFE".

(** ** Notions used to state properties *)

(** The index of the first [c] in [s], or the length of [s]. *)
Fixpoint first_index (c : ascii) (s : string) : nat :=
  match s with
  | EmptyString => O
  | String d s' => if Ascii.eqb c d then O else S (first_index c s')
  end.

(** [s] ends with [t]. *)
Definition ends_with (s t : string) : Prop := exists p, s = p ++ t.

(** [sub] occurs in [s]. *)
Definition occurs_in (sub s : string) : Prop := exists a b, s = a ++ sub ++ b.

(** One term of the entropy sum, for a count [v] out of [L] characters. *)
Definition entropy_term (L v : Z) : R :=
  IZR v / IZR L * log2 (IZR v / IZR L).

(** A row and its label as the synthesizer pairs them: a safe pattern with
    label 0 or a phishing pattern with label 1. *)
Definition sample_ok (row : list R) (label : R) : Prop :=
  (label = 0 /\
   exists u, In u safe_patterns /\ row = extract_features u) \/
  (label = 1 /\
   exists u, In u phishing_patterns /\ row = extract_features u).

(** One to three decimal digits. *)
Definition digit_group (s : string) : Prop :=
  (1 <= String.length s <= 3)%nat /\ Py.all_chars Re.digit s = true.

(** Column [j] of a matrix is zero in every row. *)
Definition zero_column (X : Np.ndarray2) (j : nat) : Prop :=
  Forall (fun r => nth j r 0 = 0) (Np.rows X).

(** The closed interval a feature lives in. *)
Definition unit_interval (x : R) : Prop := 0 <= x <= 1.

(** The characters of a string, how often one occurs, and how many
    different ones there are. *)
Definition chars (text : string) : list ascii := list_ascii_of_string text.

Definition occurrences (text : string) (c : ascii) : nat :=
  count_occ ascii_dec (chars text) c.

Definition distinct_chars (text : string) : nat :=
  length (nodup ascii_dec (chars text)).

(** [c * n] for a one-character string [c]. *)
Definition repeat_char (c : ascii) (n : nat) : string :=
  string_of_list_ascii (repeat c n).

(** The total of a list of counts. *)
Definition zsum (vs : list Z) : Z := fold_right Z.add 0%Z vs.

(** What the dictionary holds once the characters of [l] have been read. *)
Record freq_inv (l : list ascii) (d : dict) : Prop := {
  inv_nodup : NoDup (dict_keys d);
  inv_keys : forall k, In k (dict_keys d) <-> In k l;
  inv_get : forall k, dict_get d k 0 = Z.of_nat (count_occ ascii_dec l k);
  inv_sum : zsum (dict_values d) = Z.of_nat (length l)
}.

(** * Properties *)

(** ** Bounds of the feature vector *)

Section FeatureBounds.

Lemma extract_features_unfold (url : string) :
  extract_features url =
  [ Rmin (IZR (Py.len url) / 500) 1;
    Rmin (IZR (Py.len (host url)) / 100) 1;
    Rmin (IZR (Py.len (path url)) / 200) 1;
    Rmin (IZR (subdomain_count url) / 5) 1;
    flag (protocol url =? "https")%string;
    flag (Re.match_ ip_pattern (Py.first (Py.split (host url) ":")));
    Rmin (calculate_entropy (host url) / 5) 1;
    Rmin (calculate_entropy (path url) / 5) 1;
    Rmin (IZR (query_count url) / 10) 1;
    flag (Py.contains "@" url);
    Rmin (IZR (Py.count url ".") / 10) 1;
    Rmin (IZR (Py.count url "-") / 10) 1;
    flag (has_port url);
    flag (existsb (fun s => Py.contains s (host url)) shorteners);
    flag (in_set (tld url) suspicious_tlds) ].
Proof. reflexivity. Qed.

Lemma clamp_unit (x d : R) : 0 <= x -> 0 < d -> unit_interval (Rmin (x / d) 1).
Proof.
  intros Hx Hd. split.
  - apply Rmin_glb; [|lra].
    apply Rmult_le_pos; [assumption|].
    left. now apply Rinv_0_lt_compat.
  - apply Rmin_r.
Qed.

Lemma flag_cases (b : bool) : flag b = 0 \/ flag b = 1.
Proof. destruct b; [right|left]; reflexivity. Qed.

Lemma flag_unit (b : bool) : unit_interval (flag b).
Proof. unfold unit_interval. destruct b; simpl; lra. Qed.

Lemma len_nonneg (s : string) : 0 <= IZR (Py.len s).
Proof. apply IZR_le. unfold Py.len. lia. Qed.

Lemma count_nonneg (s sub : string) : 0 <= IZR (Py.count s sub).
Proof. apply IZR_le. unfold Py.count. destruct (sub =? "")%string; lia. Qed.

End FeatureBounds.

Ltac feature_bound :=
  match goal with
  | |- unit_interval (flag _) => apply flag_unit
  | |- unit_interval (Rmin (_ / _) 1) =>
      apply clamp_unit;
      [ first [ apply len_nonneg | apply count_nonneg | assumption ] | lra ]
  end.

(** ** The frequency dictionary *)

Section Frequencies.

Implicit Types (d : dict) (c k : ascii) (v : Z) (l : list ascii).

Lemma dict_get_set d c k v :
  dict_get (dict_set d c v) k 0 = if Ascii.eqb c k then v else dict_get d k 0.
Proof.
  induction d as [|[k' v'] d IH]; simpl.
  - destruct (Ascii.eqb c k); reflexivity.
  - destruct (Ascii.eqb k' c) eqn:E; simpl.
    + apply Ascii.eqb_eq in E. subst k'.
      destruct (Ascii.eqb c k); reflexivity.
    + rewrite IH. destruct (Ascii.eqb k' k) eqn:E'; [|reflexivity].
      apply Ascii.eqb_eq in E'. subst k'. now rewrite Ascii.eqb_sym, E.
Qed.

Lemma dict_get_absent d k : ~ In k (dict_keys d) -> dict_get d k 0 = 0%Z.
Proof.
  induction d as [|[k' v'] d IH]; simpl; intros H; [reflexivity|].
  destruct (Ascii.eqb k' k) eqn:E.
  - apply Ascii.eqb_eq in E. tauto.
  - apply IH. tauto.
Qed.

Lemma dict_keys_set d c v :
  dict_keys (dict_set d c v) =
  if in_dec ascii_dec c (dict_keys d) then dict_keys d else (dict_keys d ++ [c])%list.
Proof.
  induction d as [|[k' v'] d IH]; simpl; [reflexivity|].
  destruct (Ascii.eqb k' c) eqn:E; simpl.
  - destruct (ascii_dec k' c) as [Y|N]; [reflexivity|].
    apply Ascii.eqb_eq in E. now destruct N.
  - rewrite IH. destruct (ascii_dec k' c) as [Y|N].
    + apply Ascii.eqb_neq in E. now destruct E.
    + destruct (in_dec ascii_dec c (dict_keys d)); reflexivity.
Qed.

Lemma zsum_values_set d c v :
  zsum (dict_values (dict_set d c v)) =
  (zsum (dict_values d) - dict_get d c 0 + v)%Z.
Proof.
  induction d as [|[k' v'] d IH]; simpl; [lia|].
  destruct (Ascii.eqb k' c); simpl; [lia|]. rewrite IH. lia.
Qed.

Lemma dict_values_get d :
  NoDup (dict_keys d) ->
  dict_values d = map (fun k => dict_get d k 0) (dict_keys d).
Proof.
  induction d as [|[k' v'] d IH]; simpl; intros H; [reflexivity|].
  inversion H as [|? ? Hnot Hnd]; subst.
  rewrite Ascii.eqb_refl. f_equal.
  rewrite (IH Hnd). apply map_ext_in. intros k Hk.
  destruct (Ascii.eqb k' k) eqn:E; [|reflexivity].
  apply Ascii.eqb_eq in E. subst k'. now destruct Hnot.
Qed.

Lemma freq_inv_nil : freq_inv [] [].
Proof.
  split; simpl.
  - constructor.
  - intros k. tauto.
  - reflexivity.
  - reflexivity.
Qed.

Lemma freq_inv_step l d c :
  freq_inv l d -> freq_inv (l ++ [c])%list (freq_step d c).
Proof.
  intros [Hnd Hk Hg Hs]. unfold freq_step. split.
  - rewrite dict_keys_set.
    destruct (in_dec ascii_dec c (dict_keys d)) as [Hin|Hout]; [assumption|].
    apply NoDup_app; [assumption | repeat constructor; simpl; tauto |].
    intros a Ha [Hb|[]]. subst a. tauto.
  - intros k. rewrite dict_keys_set, in_app_iff. simpl.
    destruct (in_dec ascii_dec c (dict_keys d)) as [Hin|Hout].
    + rewrite Hk. split; [tauto|]. intros [H|[H|[]]]; [assumption|].
      subst k. now apply Hk.
    + rewrite in_app_iff, Hk. simpl. tauto.
  - intros k. rewrite dict_get_set, count_occ_app. simpl.
    destruct (ascii_dec c k) as [Y|N].
    + subst k. rewrite Ascii.eqb_refl, Hg. lia.
    + apply Ascii.eqb_neq in N. rewrite N, Hg. lia.
  - rewrite zsum_values_set, Hs, length_app. simpl. lia.
Qed.

Lemma freq_inv_fold rest : forall l d,
  freq_inv l d -> freq_inv (l ++ rest)%list (fold_left freq_step rest d).
Proof.
  induction rest as [|c rest IH]; intros l d H; simpl.
  - now rewrite app_nil_r.
  - replace (l ++ c :: rest)%list with ((l ++ [c]) ++ rest)%list
      by (rewrite <- app_assoc; reflexivity).
    apply IH. now apply freq_inv_step.
Qed.

Lemma char_freq_inv (text : string) :
  freq_inv (list_ascii_of_string text) (char_freq text).
Proof.
  unfold char_freq.
  apply (freq_inv_fold (list_ascii_of_string text) [] []), freq_inv_nil.
Qed.

Lemma length_chars (s : string) :
  length (list_ascii_of_string s) = String.length s.
Proof. induction s; simpl; congruence. Qed.

Lemma char_freq_values (text : string) :
  dict_values (char_freq text) =
  map (fun k => Z.of_nat (count_occ ascii_dec (list_ascii_of_string text) k))
      (dict_keys (char_freq text)).
Proof.
  destruct (char_freq_inv text) as [Hnd _ Hg _].
  rewrite (dict_values_get _ Hnd). apply map_ext. exact Hg.
Qed.

Lemma char_freq_distinct (text : string) :
  length (dict_keys (char_freq text)) =
  length (nodup ascii_dec (list_ascii_of_string text)).
Proof.
  destruct (char_freq_inv text) as [Hnd Hk _ _].
  apply Permutation_length, NoDup_Permutation;
    [assumption | apply NoDup_nodup |].
  intros k. rewrite Hk, nodup_In. tauto.
Qed.

Lemma char_freq_bounds (text : string) :
  Forall (fun v => (1 <= v <= Py.len text)%Z) (dict_values (char_freq text)).
Proof.
  rewrite char_freq_values. apply Forall_map, Forall_forall. intros k Hk.
  apply (inv_keys _ _ (char_freq_inv text)) in Hk.
  unfold Py.len. rewrite <- length_chars. split.
  - apply (count_occ_In ascii_dec) in Hk. lia.
  - apply inj_le, count_occ_bound.
Qed.

End Frequencies.

(** ** Shannon entropy *)

Section Entropy.

Lemma ln2_pos : 0 < ln 2.
Proof. rewrite <- ln_1. apply ln_increasing; lra. Qed.

Lemma log2_1 : log2 1 = 0.
Proof. unfold log2. rewrite ln_1. lra. Qed.

Lemma log2_nonpos (p : R) : 0 < p <= 1 -> log2 p <= 0.
Proof.
  intros [Hp [Hlt|Heq]].
  - unfold log2. pose proof ln2_pos as H2.
    assert (Hl : ln p < 0) by (rewrite <- ln_1; now apply ln_increasing).
    assert (Hi : 0 < / ln 2) by now apply Rinv_0_lt_compat.
    unfold Rdiv. nra.
  - subst p. rewrite log2_1. lra.
Qed.

Lemma log2_inv (x : R) : 0 < x -> log2 (/ x) = - log2 x.
Proof. intros Hx. unfold log2. rewrite ln_Rinv by assumption. lra. Qed.

Lemma calculate_entropy_loop (text : string) :
  text <> "" ->
  calculate_entropy text =
  entropy_loop (Py.len text) (dict_values (char_freq text)) 0.
Proof.
  intros H. unfold calculate_entropy.
  apply String.eqb_neq in H. rewrite H. reflexivity.
Qed.

Lemma entropy_loop_nonneg (L : Z) (counts : list Z) : forall e,
  0 <= e ->
  Forall (fun v => (1 <= v <= L)%Z) counts ->
  0 <= entropy_loop L counts e.
Proof.
  induction counts as [|v counts IH]; intros e He Hall; simpl; [assumption|].
  inversion Hall as [|? ? [Hv1 Hv2] Hrest]; subst.
  apply IH; [|assumption].
  assert (HL : 0 < IZR L) by (apply IZR_lt; lia).
  assert (Hv : 0 < IZR v) by (apply IZR_lt; lia).
  assert (HvL : IZR v <= IZR L) by (now apply IZR_le).
  assert (Hp : 0 < IZR v / IZR L <= 1).
  { split.
    - apply Rdiv_lt_0_compat; assumption.
    - apply (Rmult_le_reg_r (IZR L)); [assumption|].
      unfold Rdiv. rewrite Rmult_assoc, Rinv_l by lra. lra. }
  pose proof (log2_nonpos _ Hp) as Hlog.
  destruct Hp as [Hp0 _]. nra.
Qed.

Lemma calculate_entropy_nonneg (text : string) : 0 <= calculate_entropy text.
Proof.
  destruct (string_dec text "") as [->|H].
  - unfold calculate_entropy. simpl. lra.
  - rewrite calculate_entropy_loop by assumption.
    apply entropy_loop_nonneg; [lra | apply char_freq_bounds].
Qed.

Lemma entropy_loop_const (L m : Z) (counts : list Z) : forall e,
  Forall (eq m) counts ->
  entropy_loop L counts e =
  e - INR (length counts) * (IZR m / IZR L * log2 (IZR m / IZR L)).
Proof.
  induction counts as [|v counts IH]; intros e Hall.
  - simpl. lra.
  - inversion Hall as [|? ? Hv Hrest]; subst v.
    change (entropy_loop L (m :: counts) e)
      with (entropy_loop L counts (e - IZR m / IZR L * log2 (IZR m / IZR L))).
    rewrite (IH _ Hrest).
    change (length (m :: counts)) with (S (length counts)).
    rewrite S_INR. lra.
Qed.

Lemma zsum_const (m : Z) (vs : list Z) :
  Forall (eq m) vs -> zsum vs = (Z.of_nat (length vs) * m)%Z.
Proof.
  induction 1 as [|v vs Hv _ IH]; simpl zsum; simpl length; [lia|].
  subst v. rewrite IH. lia.
Qed.

End Entropy.

Section EntropyValues.

Lemma nodup_repeat (c : ascii) (n : nat) :
  nodup ascii_dec (repeat c (S n)) = [c].
Proof.
  induction n as [|n IH]; [reflexivity|].
  change (repeat c (S (S n))) with (c :: repeat c (S n)).
  cbn [nodup]. destruct (in_dec ascii_dec c (repeat c (S n))) as [_|N].
  - exact IH.
  - destruct N. now left.
Qed.

Lemma chars_repeat_char (c : ascii) (n : nat) :
  chars (repeat_char c n) = repeat c n.
Proof. apply list_ascii_of_string_of_list_ascii. Qed.

Lemma chars_nonempty (text : string) :
  text <> "" -> exists c, In c (chars text).
Proof.
  destruct text as [|c text]; [congruence|]. intros _. exists c. now left.
Qed.

Lemma uniform_entropy (text : string) (m : nat) :
  text <> "" ->
  (forall c, In c (chars text) -> occurrences text c = m) ->
  calculate_entropy text = log2 (INR (distinct_chars text)).
Proof.
  intros Hne Hm.
  destruct (char_freq_inv text) as [Hnd Hk Hg Hs].
  fold (chars text) in Hk, Hg, Hs.
  assert (Hall : Forall (eq (Z.of_nat m)) (dict_values (char_freq text))).
  { rewrite char_freq_values. apply Forall_map, Forall_forall. intros k Hin.
    apply Hk in Hin. apply Hm in Hin. unfold occurrences, chars in Hin.
    now rewrite Hin. }
  rewrite calculate_entropy_loop by assumption.
  rewrite (entropy_loop_const _ _ _ _ Hall).
  rewrite (zsum_const _ _ Hall) in Hs.
  unfold dict_values in Hs |- *. rewrite length_map in Hs |- *.
  pose proof (char_freq_distinct text) as Hd.
  unfold dict_keys in Hd. rewrite length_map in Hd.
  fold (chars text) in Hd. fold (distinct_chars text) in Hd.
  rewrite Hd in Hs |- *.
  destruct (chars_nonempty text Hne) as [c Hc].
  assert (Hm1 : (1 <= m)%nat).
  { rewrite <- (Hm c Hc). apply (count_occ_In ascii_dec) in Hc.
    unfold occurrences. lia. }
  assert (Hk1 : (1 <= distinct_chars text)%nat).
  { unfold distinct_chars.
    apply (nodup_In ascii_dec) in Hc.
    destruct (nodup ascii_dec (chars text)); [contradiction|simpl; lia]. }
  unfold Py.len. rewrite <- length_chars. fold (chars text).
  rewrite <- Hs, <- Nat2Z.inj_mul, <- !INR_IZR_INZ, mult_INR.
  set (k := INR (distinct_chars text)). set (q := INR m).
  assert (Hk0 : 0 < k) by (apply lt_0_INR; lia).
  assert (Hq0 : 0 < q) by (apply lt_0_INR; lia).
  replace (q / (k * q)) with (/ k) by (field; lra).
  rewrite log2_inv by assumption. field. lra.
Qed.

End EntropyValues.

(** ** Claims about the feature extractor and the entropy *)

(** C1: for every input string, [extract_features] returns a vector of
    exactly 15 entries and every entry lies in the closed interval from 0
    to 1. *)
Theorem extract_features_shape_and_range (url : string) :
  length (extract_features url) = 15%nat /\
  Forall unit_interval (extract_features url).
Proof.
  rewrite extract_features_unfold. split; [reflexivity|].
  pose proof (calculate_entropy_nonneg (host url)) as Hh.
  pose proof (calculate_entropy_nonneg (path url)) as Hp.
  assert (Hsub : 0 <= IZR (subdomain_count url))
    by (apply IZR_le; unfold subdomain_count; lia).
  assert (Hq : 0 <= IZR (query_count url)).
  { apply IZR_le. unfold query_count.
    pose proof (count_nonneg (path_and_query url) "&") as H.
    apply le_IZR in H. destruct (Py.contains "?" (path_and_query url)); lia. }
  repeat (apply Forall_cons; [feature_bound|]). apply Forall_nil.
Qed.

(** C10: the entries at indices 4, 5, 9, 12, 13 and 14 are exactly 0.0 or
    exactly 1.0 for every input string. *)
Theorem binary_features_are_binary (url : string) :
  Forall (fun i => nth i (extract_features url) 0 = 0 \/
                   nth i (extract_features url) 0 = 1)
         [4; 5; 9; 12; 13; 14]%nat.
Proof.
  rewrite extract_features_unfold.
  repeat (apply Forall_cons; [cbn [nth]; apply flag_cases|]).
  apply Forall_nil.
Qed.

(** X24: in exact arithmetic, [calculate_entropy] is 0 on the empty string,
    0 on one character repeated [n >= 1] times, and [log2 k] on a non-empty
    string whose [k] distinct characters all occur equally often. The
    doubles of the program agree on the first two cases and follow the
    third up to rounding only. *)
Theorem calculate_entropy_values :
  calculate_entropy "" = 0 /\
  (forall (c : ascii) (n : nat),
      (1 <= n)%nat -> calculate_entropy (repeat_char c n) = 0) /\
  (forall (text : string) (m : nat),
      text <> "" ->
      (forall c, In c (chars text) -> occurrences text c = m) ->
      calculate_entropy text = log2 (INR (distinct_chars text))).
Proof.
  split; [reflexivity|]. split.
  - intros c n Hn. destruct n as [|n]; [lia|].
    rewrite (uniform_entropy _ (S n)).
    + unfold distinct_chars. rewrite chars_repeat_char, nodup_repeat.
      simpl. apply log2_1.
    + discriminate.
    + intros c' Hin. unfold occurrences. rewrite chars_repeat_char in *.
      apply repeat_spec in Hin. subst c'. apply count_occ_repeat_eq.
      reflexivity.
  - intros text m. apply uniform_entropy.
Qed.

(** A two-letter string with both letters twice has one bit of entropy, and
    a run of one letter has none. *)
Lemma calculate_entropy_values_witness :
  calculate_entropy (repeat_char "a" 3) = 0 /\
  calculate_entropy "abba" = log2 (INR (distinct_chars "abba")).
Proof.
  destruct calculate_entropy_values as [_ [Hrep Huni]]. split.
  - apply Hrep. lia.
  - apply (Huni "abba" 2%nat).
    + discriminate.
    + intros c Hin. simpl in Hin.
      destruct Hin as [<-|[<-|[<-|[<-|[]]]]]; reflexivity.
Defined.

(** ** Scheme removal *)

Section SchemeRemoval.

Lemma prefix_empty (s : string) : String.prefix "" s = true.
Proof. destruct s; reflexivity. Qed.

Lemma prefix_split (p : string) : forall s,
  String.prefix p s = true ->
  s = p ++ substring (String.length p) (String.length s - String.length p) s.
Proof.
  induction p as [|a p IH]; intros s H.
  - simpl. rewrite Nat.sub_0_r. clear H.
    induction s as [|c s IHs]; [reflexivity|]. simpl. now rewrite <- IHs.
  - destruct s as [|b s]; [discriminate|]. simpl in H.
    destruct (ascii_dec a b) as [->|]; [|discriminate].
    simpl. f_equal. now apply IH.
Qed.

Lemma replace_scan_absent (old : string) : forall s,
  Py.contains old s = false -> Py.replace_scan old "" 0 s = s.
Proof.
  induction s as [|c s IH]; intros H; [reflexivity|].
  cbn [Py.contains] in H. apply orb_false_iff in H. destruct H as [Hp Hc].
  cbn [Py.replace_scan]. rewrite Hp. f_equal. now apply IH.
Qed.

Lemma prefix_app (p s : string) : String.prefix p (p ++ s) = true.
Proof.
  induction p as [|a p IH]; simpl; [apply prefix_empty|].
  destruct (ascii_dec a a) as [_|N]; [exact IH|now destruct N].
Qed.

Lemma replace_scan_skip (old new : string) (t : string) : forall s,
  Py.replace_scan old new (String.length t) (t ++ s) =
  Py.replace_scan old new 0 s.
Proof.
  induction t as [|c t IH]; intros s; simpl.
  - destruct s; reflexivity.
  - apply IH.
Qed.

Lemma replace_scan_occurrence (a : ascii) (old new s : string) :
  Py.replace_scan (String a old) new 0 (String a old ++ s) =
  new ++ Py.replace_scan (String a old) new 0 s.
Proof.
  change (String a old ++ s) with (String a (old ++ s)).
  cbn [Py.replace_scan].
  change (String a (old ++ s)) with (String a old ++ s).
  rewrite prefix_app. f_equal.
  change (String.length (String a old) - 1)%nat
    with (String.length old - 0)%nat.
  rewrite Nat.sub_0_r. apply replace_scan_skip.
Qed.

Lemma clean_url_https (s : string) : clean_url ("https://" ++ s) = clean_url s.
Proof.
  unfold clean_url, Py.replace.
  simpl ("https://" =? "")%string. simpl ("http://" =? "")%string.
  now rewrite replace_scan_occurrence.
Qed.

Lemma clean_url_http (s : string) : clean_url ("http://" ++ s) = clean_url s.
Proof.
  unfold clean_url, Py.replace.
  simpl ("https://" =? "")%string. simpl ("http://" =? "")%string.
  replace (Py.replace_scan "https://" "" 0 ("http://" ++ s))
    with ("http://" ++ Py.replace_scan "https://" "" 0 s) by reflexivity.
  now rewrite replace_scan_occurrence.
Qed.

Lemma clean_url_absent (s : string) :
  Py.contains "https://" s = false ->
  Py.contains "http://" s = false ->
  clean_url s = s.
Proof.
  intros H1 H2. unfold clean_url, Py.replace.
  simpl ("https://" =? "")%string. simpl ("http://" =? "")%string.
  rewrite (replace_scan_absent _ _ H1). now apply replace_scan_absent.
Qed.

Lemma contains_unfold (sub s : string) :
  Py.contains sub s =
  String.prefix sub s ||
  match s with
  | EmptyString => false
  | String _ s' => Py.contains sub s'
  end.
Proof. destruct s; reflexivity. Qed.

Lemma prefix_extend (p x y : string) :
  String.prefix p x = true -> String.prefix p (x ++ y) = true.
Proof.
  revert x. induction p as [|c p IH]; intros x H; [apply prefix_empty|].
  destruct x as [|d x]; [discriminate|]. simpl in H |- *.
  destruct (ascii_dec c d); [now apply IH|discriminate].
Qed.

Lemma prefix_blocked (h : ascii) (p : string) : forall a r,
  Py.contains (String h "") p = false ->
  String.prefix p a = false ->
  String.prefix p (a ++ String h r) = false.
Proof.
  induction p as [|c p IH]; intros a r Hp Ha.
  - now rewrite prefix_empty in Ha.
  - rewrite contains_unfold in Hp. apply orb_false_iff in Hp.
    destruct Hp as [Hc Hp]. destruct a as [|d a].
    + cbn [append]. simpl. destruct (ascii_dec c h) as [E|N]; [|reflexivity].
      subst c. simpl in Hc. destruct (ascii_dec h h) as [_|N]; [|now destruct N].
      now rewrite prefix_empty in Hc.
    + simpl in Ha |- *. destruct (ascii_dec c d); [now apply IH|reflexivity].
Qed.

Lemma length_append (a b : string) :
  String.length (a ++ b) = (String.length a + String.length b)%nat.
Proof. induction a as [|c a IH]; simpl; congruence. Qed.

Lemma contains_short (lit : string) :
  lit <> "" -> Py.contains lit "" = false.
Proof. destruct lit; [congruence|reflexivity]. Qed.

Lemma replace_scan_first (lit new : string) (Hu : head_unique lit) :
  forall a b,
    Py.contains lit a = false ->
    Py.replace_scan lit new 0 (a ++ lit ++ b) =
    a ++ new ++ Py.replace_scan lit new 0 b.
Proof.
  destruct lit as [|h t]; [contradiction|]. cbn [head_unique] in Hu.
  induction a as [|c a IH]; intros b Ha.
  - cbn [append]. apply (replace_scan_occurrence h t new b).
  - rewrite contains_unfold in Ha. apply orb_false_iff in Ha.
    destruct Ha as [Hp Ha].
    change ((String c a) ++ String h t ++ b)
      with (String c (a ++ String h t ++ b)).
    cbn [Py.replace_scan].
    assert (Hno : String.prefix (String h t) (String c (a ++ String h t ++ b))
                  = false).
    { simpl in Hp |- *. destruct (ascii_dec h c); [|reflexivity].
      change (String h t ++ b) with (String h (t ++ b)).
      now apply prefix_blocked. }
    rewrite Hno, (IH b Ha). reflexivity.
Qed.

Lemma first_occurrence (lit : string) (Hne : lit <> "") : forall s,
  Py.contains lit s = true ->
  exists a b, s = a ++ lit ++ b /\ Py.contains lit a = false.
Proof.
  induction s as [|c s IH]; intros H.
  - now rewrite contains_short in H.
  - rewrite contains_unfold in H.
    destruct (String.prefix lit (String c s)) eqn:Ep.
    + exists "", (substring (String.length lit)
                            (String.length (String c s) - String.length lit)
                            (String c s)).
      split; [now apply prefix_split | now apply contains_short].
    + cbn [orb] in H. destruct (IH H) as [a [b [Hs Ha]]].
      exists (String c a), b. split; [cbn [append]; now rewrite <- Hs|].
      rewrite contains_unfold, Ha, orb_false_r.
      destruct (String.prefix lit (String c a)) eqn:E; [|reflexivity].
      apply (prefix_extend _ _ (lit ++ b)) in E.
      cbn [append] in E. rewrite <- Hs in E. congruence.
Qed.

Lemma head_unique_nonempty (lit : string) : head_unique lit -> lit <> "".
Proof. destruct lit; [contradiction|discriminate]. Qed.

Lemma deleted_sound (lit : string) (Hu : head_unique lit) (s r : string) :
  deleted lit s r -> r = Py.replace_scan lit "" 0 s.
Proof.
  induction 1 as [s Hs|a b r Ha _ IH].
  - symmetry. now apply replace_scan_absent.
  - rewrite (replace_scan_first lit "" Hu a b Ha). cbn [append].
    now rewrite IH.
Qed.

Lemma deleted_complete (lit : string) (Hu : head_unique lit) : forall n s,
  (String.length s <= n)%nat -> deleted lit s (Py.replace_scan lit "" 0 s).
Proof.
  pose proof (head_unique_nonempty lit Hu) as Hne.
  induction n as [|n IH]; intros s Hn;
    destruct (Py.contains lit s) eqn:E.
  - destruct (first_occurrence lit Hne s E) as [a [b [Hs _]]]. subst s.
    rewrite !length_append in Hn. destruct lit; [congruence|simpl in Hn; lia].
  - rewrite (replace_scan_absent lit s E). now constructor.
  - destruct (first_occurrence lit Hne s E) as [a [b [Hs Ha]]]. subst s.
    rewrite (replace_scan_first lit "" Hu a b Ha). cbn [append].
    constructor; [assumption|]. apply IH.
    rewrite !length_append in Hn. destruct lit; [congruence|simpl in Hn; lia].
  - rewrite (replace_scan_absent lit s E). now constructor.
Qed.

Lemma deleted_iff_replace (lit : string) (Hu : head_unique lit) (s r : string) :
  deleted lit s r <-> r = Py.replace s lit "".
Proof.
  pose proof (head_unique_nonempty lit Hu) as Hne.
  assert (Hr : Py.replace s lit "" = Py.replace_scan lit "" 0 s).
  { unfold Py.replace. apply String.eqb_neq in Hne. now rewrite Hne. }
  rewrite Hr. split.
  - now apply deleted_sound.
  - intros ->. now apply (deleted_complete lit Hu (String.length s)).
Qed.

End SchemeRemoval.

(** C2, as the code has it: [clean_url] deletes every occurrence of the
    literal ["https://"] and then every occurrence of the literal
    ["http://"], wherever they stand: the result of the two deletions is
    [clean_url url] and nothing else. A leading literal of either kind is
    always dropped and the rest is cleaned in the same way, so one may
    follow the other; the result is the plain removal of one leading scheme
    whenever what follows that scheme holds neither literal. *)
Theorem clean_url_removes_scheme_literals :
  (forall url r,
      (exists mid, deleted "https://" url mid /\ deleted "http://" mid r)
      <-> r = clean_url url) /\
  (forall s, clean_url ("https://" ++ s) = clean_url s) /\
  (forall s, clean_url ("http://" ++ s) = clean_url s) /\
  (forall url,
      Py.contains "https://" (strip_scheme_spec url) = false ->
      Py.contains "http://" (strip_scheme_spec url) = false ->
      clean_url url = strip_scheme_spec url).
Proof.
  split.
  { intros url r. unfold clean_url. split.
    - intros [mid [H1 H2]].
      apply (deleted_iff_replace "https://" eq_refl) in H1.
      apply (deleted_iff_replace "http://" eq_refl) in H2. now subst mid.
    - intros ->. exists (Py.replace url "https://" ""). split.
      + now apply (deleted_iff_replace "https://" eq_refl).
      + now apply (deleted_iff_replace "http://" eq_refl). }
  split; [exact clean_url_https|]. split; [exact clean_url_http|].
  intros url H1 H2. unfold strip_scheme_spec in *.
  destruct (String.prefix "https://" url) eqn:E1.
  - rewrite (prefix_split _ _ E1) at 1. rewrite clean_url_https.
    now apply clean_url_absent.
  - destruct (String.prefix "http://" url) eqn:E2.
    + rewrite (prefix_split _ _ E2) at 1. rewrite clean_url_http.
      now apply clean_url_absent.
    + now apply clean_url_absent.
Qed.

(** A plain address keeps its host and path once the scheme is gone, and an
    address inside a query loses its scheme too. *)
Lemma clean_url_removes_scheme_literals_witness :
  clean_url "https://a.com/x" = strip_scheme_spec "https://a.com/x" /\
  "a.com/?u=b.com" = clean_url "http://a.com/?u=http://b.com".
Proof.
  destruct clean_url_removes_scheme_literals as [Hdel [_ [_ H]]]. split.
  - apply H; reflexivity.
  - apply Hdel. exists "http://a.com/?u=http://b.com". split.
    + apply deleted_none. reflexivity.
    + apply (deleted_first "http://" "" "a.com/?u=http://b.com" "a.com/?u=b.com");
        [reflexivity|].
      apply (deleted_first "http://" "a.com/?u=" "b.com" "b.com");
        [reflexivity|].
      apply deleted_none. reflexivity.
Defined.

(** C2 does not hold as worded: a scheme literal inside the address is
    deleted too, and a second leading scheme goes with the first. *)
Lemma clean_url_not_single_prefix :
  clean_url "http://a.com/?u=http://b.com" = "a.com/?u=b.com" /\
  strip_scheme_spec "http://a.com/?u=http://b.com" = "a.com/?u=http://b.com" /\
  clean_url "http://a.com/?u=http://b.com"
    <> strip_scheme_spec "http://a.com/?u=http://b.com" /\
  clean_url "https://http://a.com" = "a.com" /\
  strip_scheme_spec "https://http://a.com" = "http://a.com".
Proof.
  repeat split; try reflexivity. vm_compute. discriminate.
Qed.

(** ** The host before its port *)

Section HostSegment.

Lemma prefix_char (c d : ascii) (s : string) :
  String.prefix (String c "") (String d s) = Ascii.eqb c d.
Proof.
  simpl. destruct (ascii_dec c d) as [->|N].
  - now rewrite prefix_empty, Ascii.eqb_refl.
  - symmetry. now apply Ascii.eqb_neq.
Qed.

Lemma split_char_cons (sep c : ascii) (s : string) :
  Py.first (Py.split (String c s) (String sep "")) =
  if Ascii.eqb sep c then ""
  else String c (Py.first (Py.split s (String sep ""))).
Proof.
  unfold Py.split. cbn [Py.split_scan]. rewrite prefix_char.
  change (String.length (String sep "") - 1)%nat with 0%nat.
  destruct (Ascii.eqb sep c); [reflexivity|].
  destruct (Py.split_scan (String sep "") 0 s); reflexivity.
Qed.

Lemma contains_char_cons (sep c : ascii) (s : string) :
  Py.contains (String sep "") (String c s) =
  Ascii.eqb sep c || Py.contains (String sep "") s.
Proof. cbn [Py.contains]. now rewrite prefix_char. Qed.

Lemma count_char_cons (sep c : ascii) (s : string) :
  Py.count (String c s) (String sep "") =
  ((if Ascii.eqb sep c then 1 else 0) + Py.count s (String sep ""))%Z.
Proof.
  unfold Py.count. simpl (String sep "" =? "")%string.
  cbn [Py.count_scan]. rewrite prefix_char.
  change (String.length (String sep "") - 1)%nat with 0%nat.
  destruct (Ascii.eqb sep c); lia.
Qed.

Lemma count_char_nonneg (sep : ascii) (s : string) :
  (0 <= Py.count s (String sep ""))%Z.
Proof.
  unfold Py.count. change (String sep "" =? "")%string with false.
  cbv iota. lia.
Qed.

Lemma count_char_zero (sep : ascii) (s : string) :
  Py.count s (String sep "") = 0%Z -> Py.contains (String sep "") s = false.
Proof.
  induction s as [|c s IH]; intros H; [reflexivity|].
  rewrite count_char_cons in H. rewrite contains_char_cons.
  pose proof (count_char_nonneg sep s) as Hs.
  destruct (Ascii.eqb sep c); [lia|]. apply IH. lia.
Qed.

Lemma split_first_absent (sep : ascii) (s : string) :
  Py.contains (String sep "") s = false ->
  Py.first (Py.split s (String sep "")) = s.
Proof.
  induction s as [|c s IH]; intros H; [reflexivity|].
  rewrite contains_char_cons in H. apply orb_false_iff in H.
  destruct H as [Hc Hs]. rewrite split_char_cons, Hc. f_equal. now apply IH.
Qed.

(** What [split(":")[0]] is: the host up to its first colon. *)
Lemma split_first_prefix (sep : ascii) (s : string) :
  exists rest,
    s = Py.first (Py.split s (String sep "")) ++ rest /\
    Py.contains (String sep "") (Py.first (Py.split s (String sep ""))) = false /\
    (rest = "" \/ String.prefix (String sep "") rest = true).
Proof.
  induction s as [|c s [rest [H1 [H2 H3]]]].
  - exists "". repeat split. now left.
  - rewrite split_char_cons. destruct (Ascii.eqb sep c) eqn:E.
    + exists (String c s). repeat split. right.
      now rewrite prefix_char.
    + exists rest. split; [|split].
      * simpl. now rewrite <- H1.
      * now rewrite contains_char_cons, E, H2.
      * assumption.
Qed.

Lemma split_first_single_colon (h : string) :
  (Py.count h ":" <= 1)%Z ->
  Py.first (Py.split h ":") = strip_port_spec h.
Proof.
  induction h as [|c h IH]; intros H; [reflexivity|].
  rewrite count_char_cons in H. rewrite split_char_cons.
  pose proof (count_char_nonneg ":" h) as Hh.
  cbn [strip_port_spec]. rewrite (Ascii.eqb_sym c).
  destruct (Ascii.eqb ":" c) eqn:E.
  - rewrite (count_char_zero ":" h) by lia. reflexivity.
  - destruct (Py.contains ":" h) eqn:Ec.
    + f_equal. apply IH. lia.
    + f_equal. now apply split_first_absent.
Qed.

Lemma flag_true (b : bool) : flag b = 1 <-> b = true.
Proof. destruct b; simpl; split; intros H; try reflexivity; try lra; discriminate. Qed.

Lemma flag_false (b : bool) : flag b = 0 <-> b = false.
Proof. destruct b; simpl; split; intros H; try reflexivity; try lra; discriminate. Qed.

End HostSegment.

(** C6, as the code has it: entry 5 is 1.0 exactly when the part of the host
    before its first [:] matches the pattern, and 0.0 otherwise. That part is
    the host with its port removed whenever the host has at most one colon.
    The two sample addresses give 1.0 and 0.0. *)
Theorem ip_host_feature :
  (forall url,
      let h := Py.first (Py.split (host url) ":") in
      (nth 5 (extract_features url) 0 = 1 <-> Re.match_ ip_pattern h = true) /\
      (nth 5 (extract_features url) 0 = 0 <-> Re.match_ ip_pattern h = false) /\
      (exists rest,
          host url = h ++ rest /\ Py.contains ":" h = false /\
          (rest = "" \/ String.prefix ":" rest = true)) /\
      ((Py.count (host url) ":" <= 1)%Z -> h = strip_port_spec (host url))) /\
  nth 5 (extract_features "http://192.168.1.1/x") 0 = 1 /\
  nth 5 (extract_features "http://example.com") 0 = 0.
Proof.
  split; [|split].
  - intros url h. rewrite extract_features_unfold. cbn [nth]. fold h.
    split; [apply flag_true|]. split; [apply flag_false|].
    split; [apply split_first_prefix | apply split_first_single_colon].
  - rewrite extract_features_unfold. cbn [nth]. now apply flag_true.
  - rewrite extract_features_unfold. cbn [nth]. now apply flag_false.
Qed.

(** A host with one port: the segment before the colon is the host with
    its port removed. *)
Lemma ip_host_feature_witness :
  Py.first (Py.split (host "http://10.0.0.1:8080/a") ":")
  = strip_port_spec (host "http://10.0.0.1:8080/a").
Proof.
  destruct ip_host_feature as [H _].
  destruct (H "http://10.0.0.1:8080/a") as [_ [_ [_ Hs]]].
  apply Hs. vm_compute. discriminate.
Defined.

(** C6 does not hold as worded: with two colons in the host, removing what
    follows the last one leaves a string the pattern rejects, yet entry 5
    is 1.0. *)
Lemma ip_host_feature_not_last_colon :
  host "1.2.3.4:80:90" = "1.2.3.4:80:90" /\
  Re.match_ ip_pattern (strip_port_spec (host "1.2.3.4:80:90")) = false /\
  nth 5 (extract_features "1.2.3.4:80:90") 0 = 1.
Proof.
  split; [reflexivity|]. split; [reflexivity|].
  rewrite extract_features_unfold. cbn [nth]. now apply flag_true.
Qed.

(** ** Prediction and export *)

Section Predict.

Lemma length_zeros (n : nat) : length (zeros n) = n.
Proof. apply repeat_length. Qed.

Lemma vdot_zeros (n : nat) : forall v, Np.vdot (zeros n) v = 0.
Proof.
  induction n as [|n IH]; intros v; [reflexivity|].
  destruct v as [|x v]; [reflexivity|].
  unfold Np.vdot in *. cbn [zeros repeat combine map Np.sum fold_right fst snd].
  fold (zeros n). rewrite Rmult_0_l, Rplus_0_l. apply IH.
Qed.

Lemma sigmoid_0 : sigmoid 0 = 1 / 2.
Proof. unfold sigmoid. rewrite Ropp_0, exp_0. lra. Qed.

Lemma floats_of_map (w : list R) : floats_of (map PyFloat w) = Some w.
Proof.
  induction w as [|x w IH]; [reflexivity|]. simpl. now rewrite IH.
Qed.

End Predict.

(** C7: on the model [__init__] builds (15 zero weights, zero bias),
    [predict] returns exactly 0.5 for every vector of 15 features; and on any
    model and any input, [predict] leaves weights and bias as they were. *)
Theorem predict_zero_model_is_half :
  (forall v, length v = 15%nat ->
             predict v (init None 0) = (inr (1 / 2), init None 0)) /\
  (forall self v, snd (predict v self) = self).
Proof.
  split.
  - intros v Hv. unfold predict, bind, lift, get_weights, get_bias, ret, Np.dot.
    cbn [init weights bias]. rewrite length_zeros, Hv, Nat.eqb_refl.
    rewrite vdot_zeros, Rplus_0_l. now rewrite sigmoid_0.
  - intros self v.
    unfold predict, bind, lift, get_weights, get_bias, ret.
    destruct (Np.dot (weights self) v); reflexivity.
Qed.

(** Fifteen features set to one half. *)
Lemma predict_zero_model_is_half_witness :
  predict (repeat (1 / 2) 15) (init None 0) = (inr (1 / 2), init None 0).
Proof.
  destruct predict_zero_model_is_half as [H _]. apply H. reflexivity.
Defined.

(** C8, as the code has it: [to_json] builds a record with the two fields
    [weights] and [bias], in that order; [weights] lists the model's weights
    in index order, as many as the model holds (15 for the model [__init__]
    builds by default, but the code fixes no length), [bias] is the model's
    bias, the model is left as it was, and reading the two fields back gives
    the model's weights and bias. *)
Theorem to_json_round_trip :
  (forall self : Model,
      exists d ws,
        to_json self = (inr (PyDict d), self) /\
        map fst d = ["weights"; "bias"] /\
        dict_lookup "weights" d = Some (PyList ws) /\
        length ws = length (weights self) /\
        (forall i, (i < length (weights self))%nat ->
                   nth i ws (PyFloat 0) = PyFloat (nth i (weights self) 0)) /\
        dict_lookup "bias" d = Some (PyFloat (bias self)) /\
        from_json (PyDict d) = Some self) /\
  (forall b, length (weights (init None b)) = 15%nat).
Proof.
  split; [|reflexivity]. intros self.
  exists [("weights", PyList (map PyFloat (weights self)));
          ("bias", PyFloat (bias self))], (map PyFloat (weights self)).
  repeat split.
  - now rewrite length_map.
  - intros i _. apply (map_nth PyFloat).
  - unfold from_json. cbn [dict_lookup String.eqb Ascii.eqb Bool.eqb].
    rewrite floats_of_map. destruct self; reflexivity.
Qed.

(** The model [__init__] builds by default exports 15 weights, the first
    of which is its first weight, and reads back unchanged. *)
Lemma to_json_round_trip_witness :
  exists d ws,
    to_json (init None 0) = (inr (PyDict d), init None 0) /\
    length ws = 15%nat /\
    nth 0 ws (PyFloat 0) = PyFloat (nth 0 (weights (init None 0)) 0) /\
    from_json (PyDict d) = Some (init None 0).
Proof.
  destruct (proj1 to_json_round_trip (init None 0))
    as [d [ws [H1 [_ [_ [H4 [H5 [_ H7]]]]]]]].
  exists d, ws. split; [exact H1|]. split; [|split].
  - rewrite H4. apply (proj2 to_json_round_trip 0).
  - apply H5. simpl. lia.
  - exact H7.
Defined.

(** C8 does not hold as worded: a model built with two weights exports two
    reals, not 15. *)
Lemma to_json_exports_any_length :
  to_json (init (Some [1; 2]) 0)
  = (inr (PyDict [("weights", PyList [PyFloat 1; PyFloat 2]);
                  ("bias", PyFloat 0)]),
     init (Some [1; 2]) 0) /\
  length [PyFloat 1; PyFloat 2] <> 15%nat.
Proof. split; [reflexivity|discriminate]. Qed.

(** ** The training loop *)

Section Broadcast.

Implicit Types a b : list R.

Lemma length_zip_sub a b :
  length a = length b -> length (Np.zip_sub a b) = length a.
Proof.
  intros H. unfold Np.zip_sub. rewrite length_map, length_combine, H.
  apply Nat.min_id.
Qed.

Lemma sub_same a b : length a = length b -> Np.sub a b = inr (Np.zip_sub a b).
Proof. intros H. unfold Np.sub. now rewrite H, Nat.eqb_refl. Qed.

Lemma sub_stretch_right a b :
  length b = 1%nat -> exists r, Np.sub a b = inr r /\ length r = length a.
Proof.
  intros Hb. unfold Np.sub.
  destruct (length a =? length b)%nat eqn:E.
  - apply Nat.eqb_eq in E. eexists. split; [reflexivity|].
    now apply length_zip_sub.
  - destruct b as [|v [|? ?]]; try discriminate.
    apply Nat.eqb_neq in E. simpl in E.
    destruct a as [|x [|x' a]].
    + eexists. split; reflexivity.
    + now destruct E.
    + eexists. split; [reflexivity|]. now rewrite length_map.
Qed.

Lemma sub_stretch_left a b :
  length a = 1%nat -> exists r, Np.sub a b = inr r /\ length r = length b.
Proof.
  intros Ha. unfold Np.sub.
  destruct (length a =? length b)%nat eqn:E.
  - apply Nat.eqb_eq in E. eexists. split; [reflexivity|].
    rewrite length_zip_sub; assumption.
  - destruct a as [|x [|? ?]]; try discriminate.
    eexists. split; [reflexivity|]. now rewrite length_map.
Qed.

Lemma sub_mismatch a b :
  length a <> length b -> length a <> 1%nat -> length b <> 1%nat ->
  Np.sub a b = inl ValueError.
Proof.
  intros Hab Ha Hb. unfold Np.sub.
  apply Nat.eqb_neq in Hab. rewrite Hab.
  destruct a as [|x [|x' a]]; destruct b as [|v [|v' b]];
    try reflexivity; simpl in *; congruence.
Qed.

Lemma isub_same a b : length a = length b -> Np.isub a b = inr (Np.zip_sub a b).
Proof. intros H. unfold Np.isub. now rewrite H, Nat.eqb_refl. Qed.

Lemma matvec_aligned (X : Np.ndarray2) (v : list R) :
  snd (Np.shape X) = length v ->
  Np.matvec X v = inr (map (fun r => Np.vdot r v) (Np.rows X)).
Proof. intros H. unfold Np.matvec. now rewrite H, Nat.eqb_refl. Qed.

Lemma matvec_misaligned (X : Np.ndarray2) (v : list R) :
  snd (Np.shape X) <> length v -> Np.matvec X v = inl ValueError.
Proof. intros H. unfold Np.matvec. apply Nat.eqb_neq in H. now rewrite H. Qed.

Lemma truediv_nonzero (a b : Z) : b <> 0%Z -> truediv a b = inr (IZR a / IZR b).
Proof. intros H. unfold truediv. apply Z.eqb_neq in H. now rewrite H. Qed.

End Broadcast.

Section Epoch.

Variables (X : Np.ndarray2) (y : list R) (lr : R).

Local Abbreviation n := (fst (Np.shape X)).
Local Abbreviation k := (snd (Np.shape X)).

Hypothesis Hwf : Np.wf X.
Hypothesis Hn : (1 <= n)%nat.

Lemma length_forward (w : list R) (b : R) : length (forward X w b) = n.
Proof.
  unfold forward, Np.add_scalar. rewrite !length_map. apply Hwf.
Qed.

Lemma length_rows_T : length (Np.rows (Np.T X)) = k.
Proof. unfold Np.T. cbn [Np.rows]. now rewrite length_map, length_seq. Qed.

Lemma length_descend (e1 e2 : list R) (self : Model) :
  length (weights self) = k -> length (weights (descend X lr e1 e2 self)) = k.
Proof.
  intros H. unfold descend. cbn [weights].
  rewrite length_zip_sub; [assumption|].
  unfold Np.scale. now rewrite !length_map, length_rows_T.
Qed.

Lemma epoch_steps (self : Model) (e : list R) :
  length (weights self) = k ->
  Np.sub (forward X (weights self) (bias self)) y = inr e ->
  length e = n ->
  epoch X y n lr self = (inr tt, descend X lr e e self).
Proof.
  intros Hw He Hlen.
  unfold epoch, bind, lift, get_weights, get_bias, set_weights, set_bias.
  rewrite matvec_aligned by (now rewrite Hw).
  rewrite truediv_nonzero by lia.
  fold (forward X (weights self) (bias self)). rewrite He.
  rewrite matvec_aligned by (cbn [Np.T Np.shape snd]; now rewrite Hlen).
  rewrite isub_same.
  - reflexivity.
  - unfold Np.scale. now rewrite !length_map, length_rows_T.
Qed.

Lemma epoch_raises (self : Model) :
  length (weights self) = k ->
  length y <> n -> length y <> 1%nat ->
  epoch X y n lr self = (inl ValueError, self).
Proof.
  intros Hw Hy Hy1.
  unfold epoch, bind, lift, get_weights, get_bias, set_weights, set_bias.
  rewrite matvec_aligned by (now rewrite Hw).
  rewrite truediv_nonzero by lia.
  fold (forward X (weights self) (bias self)).
  destruct (Nat.eq_dec n 1) as [E1|E1].
  - destruct (sub_stretch_left (forward X (weights self) (bias self)) y)
      as [r [Hr Hlen]]; [now rewrite length_forward|].
    rewrite Hr. rewrite matvec_misaligned; [reflexivity|].
    cbn [Np.T Np.shape snd]. fold n. congruence.
  - rewrite sub_mismatch; [reflexivity| | |assumption];
      rewrite length_forward; congruence.
Qed.

End Epoch.

Section Indexing.

Lemma nth_map_seq {B : Type} (g : nat -> B) (len i : nat) (d : B) :
  (i < len)%nat -> nth i (map g (seq 0 len)) d = g i.
Proof.
  intros H. rewrite (nth_indep _ d (g 0%nat))
    by (now rewrite length_map, length_seq).
  rewrite map_nth, seq_nth by assumption. reflexivity.
Qed.

Lemma nth_map_lt {A B : Type} (f : A -> B) (l : list A) (i : nat)
  (d : A) (d' : B) :
  (i < length l)%nat -> nth i (map f l) d' = f (nth i l d).
Proof.
  intros H. rewrite (nth_indep _ d' (f d)) by (now rewrite length_map).
  apply map_nth.
Qed.

Lemma map_as_seq {A B : Type} (f : A -> B) (l : list A) (d : A) :
  map f l = map (fun i => f (nth i l d)) (seq 0 (length l)).
Proof.
  apply (nth_ext _ _ (f d) (f d)).
  - now rewrite !length_map, length_seq.
  - intros i Hi. rewrite length_map in Hi.
    now rewrite map_nth, nth_map_seq.
Qed.

Lemma zip_as_seq (op : R -> R -> R) (a b : list R) :
  length a = length b ->
  map (fun xy => op (fst xy) (snd xy)) (combine a b) =
  map (fun i => op (nth i a 0) (nth i b 0)) (seq 0 (length a)).
Proof.
  intros H. rewrite (map_as_seq _ (combine a b) (0, 0)).
  rewrite length_combine, <- H, Nat.min_id.
  apply map_ext. intros i. now rewrite combine_nth.
Qed.

Lemma zip_sub_index (a b : list R) :
  length a = length b ->
  Np.zip_sub a b = map (fun i => nth i a 0 - nth i b 0) (seq 0 (length a)).
Proof. exact (zip_as_seq Rminus a b). Qed.

Lemma vdot_index (a b : list R) :
  length a = length b ->
  Np.vdot a b =
  Np.sum (map (fun i => nth i a 0 * nth i b 0) (seq 0 (length a))).
Proof. intros H. unfold Np.vdot. now rewrite (zip_as_seq Rmult a b H). Qed.

End Indexing.

Section Fit.

Variables (X : Np.ndarray2) (y : list R) (lr : R).

Local Abbreviation n := (fst (Np.shape X)).
Local Abbreviation k := (snd (Np.shape X)).

Lemma fit_unfold (epochs : Z) (self : Model) :
  fit X y epochs lr self = for_range (Z.to_nat epochs) (epoch X y n lr) (fresh k).
Proof.
  unfold fit, fresh. destruct (Np.shape X) as [n0 k0]. reflexivity.
Qed.

Lemma fit_no_epoch (epochs : Z) (self : Model) :
  (epochs <= 0)%Z -> fit X y epochs lr self = (inr tt, fresh k).
Proof.
  intros H. rewrite fit_unfold.
  replace (Z.to_nat epochs) with 0%nat by lia. reflexivity.
Qed.

Lemma epoch_no_row (self : Model) :
  n = 0%nat -> length (weights self) = k ->
  epoch X y n lr self = (inl ZeroDivisionError, self).
Proof.
  intros H0 Hw.
  unfold epoch, bind, lift, get_weights, get_bias.
  rewrite matvec_aligned by (now rewrite Hw).
  rewrite H0. reflexivity.
Qed.

Hypothesis Hwf : Np.wf X.
Hypothesis Hn : (1 <= n)%nat.

Lemma epoch_same_length (self : Model) :
  length y = n -> length (weights self) = k ->
  epoch X y n lr self = (inr tt, epoch_state X y lr self).
Proof.
  intros Hy Hw. apply epoch_steps; [assumption|assumption| |].
  - apply sub_same. now rewrite (length_forward X Hwf).
  - rewrite length_zip_sub; rewrite (length_forward X Hwf); auto.
Qed.

Lemma length_epoch_state (self : Model) :
  length (weights self) = k -> length (weights (epoch_state X y lr self)) = k.
Proof. apply length_descend. Qed.

Lemma for_range_runs (Hy : length y = n) : forall e self,
  length (weights self) = k ->
  for_range e (epoch X y n lr) self =
  (inr tt, Nat.iter e (epoch_state X y lr) self).
Proof.
  induction e as [|e IH]; intros self Hw; [reflexivity|].
  cbn [for_range]. unfold bind at 1. rewrite epoch_same_length by assumption.
  rewrite IH by now apply length_epoch_state.
  now rewrite Nat.iter_succ_r.
Qed.

Lemma for_range_succeeds (Hy : length y = n \/ length y = 1%nat) :
  forall e self,
    length (weights self) = k ->
    exists self',
      for_range e (epoch X y n lr) self = (inr tt, self') /\
      length (weights self') = k.
Proof.
  induction e as [|e IH]; intros self Hw.
  - exists self. now split.
  - assert (He : exists err,
               Np.sub (forward X (weights self) (bias self)) y = inr err /\
               length err = n).
    { destruct Hy as [Hy'|Hy'].
      - exists (Np.zip_sub (forward X (weights self) (bias self)) y). split.
        + apply sub_same. now rewrite (length_forward X Hwf).
        + rewrite length_zip_sub; rewrite (length_forward X Hwf); auto.
      - destruct (sub_stretch_right
                    (forward X (weights self) (bias self)) y Hy')
          as [r [Hr Hl]].
        exists r. split; [assumption|].
        now rewrite Hl, (length_forward X Hwf). }
    destruct He as [err [Hsub Hlen]].
    cbn [for_range]. unfold bind at 1.
    rewrite (epoch_steps X y lr Hn self err Hw Hsub Hlen).
    apply IH. now apply length_descend.
Qed.

Lemma for_range_raises (Hy : length y <> n) (Hy1 : length y <> 1%nat) :
  forall e self,
    length (weights self) = k ->
    for_range (S e) (epoch X y n lr) self = (inl ValueError, self).
Proof.
  intros e self Hw. cbn [for_range]. unfold bind at 1.
  now rewrite (epoch_raises X y lr Hwf Hn self Hw Hy Hy1).
Qed.

Lemma forward_index (w : list R) (b : R) :
  forward X w b =
  map sigmoid
      (map (fun i => Np.vdot (nth i (Np.rows X) []) w + b) (seq 0 n)).
Proof.
  unfold forward, Np.add_scalar. rewrite !map_map.
  rewrite (map_as_seq _ (Np.rows X) []).
  destruct Hwf as [Hrows _]. now rewrite Hrows.
Qed.

Lemma column_index (j i : nat) :
  (i < n)%nat ->
  nth i (map (fun r => nth j r 0) (Np.rows X)) 0
  = nth j (nth i (Np.rows X) []) 0.
Proof.
  intros Hi. destruct Hwf as [Hrows _]. 
  rewrite (nth_map_lt _ _ _ []) by now rewrite Hrows. reflexivity.
Qed.

Lemma gradient_index (err : list R) :
  length err = n ->
  Np.scale (IZR 1 / IZR (Z.of_nat n))
    (map (fun r => Np.vdot r err) (Np.rows (Np.T X)))
  = map (fun j =>
           (1 / INR n)
           * Np.sum (map (fun i => nth j (nth i (Np.rows X) []) 0
                                   * nth i err 0)
                         (seq 0 n)))
        (seq 0 k).
Proof.
  intros Herr. unfold Np.scale, Np.T. cbn [Np.rows]. fold k.
  rewrite !map_map. apply map_ext. intros j.
  rewrite <- INR_IZR_INZ. f_equal.
  destruct Hwf as [Hrows _]. 
  rewrite vdot_index by now rewrite length_map, Hrows, Herr.
  rewrite length_map, Hrows. f_equal.
  apply map_ext_in. intros i Hi. apply in_seq in Hi.
  rewrite column_index by lia. reflexivity.
Qed.

Lemma epoch_state_spec (self : Model) :
  length y = n -> length (weights self) = k ->
  (weights (epoch_state X y lr self), bias (epoch_state X y lr self)) =
  spec_epoch n k (Np.rows X) y lr (weights self, bias self).
Proof.
  intros Hy Hw. unfold epoch_state, descend, spec_epoch. cbn [weights bias].
  rewrite <- (forward_index (weights self) (bias self)).
  set (pred := forward X (weights self) (bias self)).
  assert (Hp : length pred = n) by apply (length_forward X Hwf).
  assert (Herr : Np.zip_sub pred y
                 = map (fun i => nth i pred 0 - nth i y 0) (seq 0 n)).
  { rewrite zip_sub_index by congruence. now rewrite Hp. }
  assert (Hlen : length (Np.zip_sub pred y) = n)
    by (rewrite length_zip_sub; congruence).
  rewrite (gradient_index _ Hlen), <- Herr.
  set (dw := map _ (seq 0 k)).
  assert (Hdw : length dw = k) by (unfold dw; now rewrite length_map, length_seq).
  f_equal.
  - rewrite zip_sub_index
      by (unfold Np.scale; rewrite length_map; congruence).
    rewrite Hw. apply map_ext_in. intros j Hj. apply in_seq in Hj.
    unfold Np.scale. rewrite (nth_map_lt _ _ _ 0) by lia. reflexivity.
  - rewrite <- INR_IZR_INZ. reflexivity.
Qed.

Lemma iter_epoch_state_spec (Hy : length y = n) : forall e self,
  length (weights self) = k ->
  length (weights (Nat.iter e (epoch_state X y lr) self)) = k /\
  (weights (Nat.iter e (epoch_state X y lr) self),
   bias (Nat.iter e (epoch_state X y lr) self)) =
  Nat.iter e (spec_epoch n k (Np.rows X) y lr) (weights self, bias self).
Proof.
  induction e as [|e IH]; intros self Hw; [now split|].
  destruct (IH self Hw) as [Hlen Heq]. rewrite !Nat.iter_succ. split.
  - now apply length_epoch_state.
  - rewrite epoch_state_spec by assumption. now rewrite Heq.
Qed.

End Fit.

(** ** Claims about [fit] *)

Lemma fit_outcomes (X : Np.ndarray2) (y : list R) (epochs : Z)
  (lr : R) (self : Model) :
  Np.wf X ->
  (1 <= fst (Np.shape X))%nat ->
  ((epochs <= 0)%Z ->
   fit X y epochs lr self = (inr tt, fresh (snd (Np.shape X)))) /\
  ((1 <= epochs)%Z ->
   length y <> fst (Np.shape X) -> length y <> 1%nat ->
   fit X y epochs lr self = (inl ValueError, fresh (snd (Np.shape X)))) /\
  (length y = fst (Np.shape X) \/ length y = 1%nat ->
   exists self',
     fit X y epochs lr self = (inr tt, self') /\
     length (weights self') = snd (Np.shape X)).
Proof.
  intros Hwf Hn. split; [|split].
  - apply fit_no_epoch.
  - intros He Hy Hy1. rewrite fit_unfold.
    destruct (Z.to_nat epochs) as [|e] eqn:E; [lia|].
    apply for_range_raises; try assumption. apply length_zeros.
  - intros Hy. rewrite fit_unfold.
    apply for_range_succeeds; try assumption. apply length_zeros.
Qed.




(** C4, as the code has it: on an [n]-by-15 matrix with [n >= 1] rows, [n]
    labels and [e >= 0] epochs, [fit] completes and leaves exactly the
    weights and bias that [e] gradient-descent steps produce from all-zero
    weights and zero bias, each step being the six formulas of the
    specification; nothing else stops or reorders the loop. *)
Theorem fit_is_batch_gradient_descent (X : Np.ndarray2) (y : list R)
  (epochs : Z) (lr : R) (self : Model) (n : nat) :
  Np.wf X ->
  Np.shape X = (n, 15%nat) ->
  (1 <= n)%nat ->
  length y = n ->
  (0 <= epochs)%Z ->
  fit X y epochs lr self =
  (inr tt,
   {| weights := fst (spec_fit n 15 (Np.rows X) y (Z.to_nat epochs) lr);
      bias := snd (spec_fit n 15 (Np.rows X) y (Z.to_nat epochs) lr) |}).
Proof.
  intros Hwf Hshape Hn Hy _.
  assert (Hfst : fst (Np.shape X) = n) by now rewrite Hshape.
  assert (Hsnd : snd (Np.shape X) = 15%nat) by now rewrite Hshape.
  rewrite fit_unfold, for_range_runs;
    [| assumption | lia | congruence | apply length_zeros].
  destruct (iter_epoch_state_spec X y lr Hwf ltac:(lia) ltac:(congruence)
              (Z.to_nat epochs) (fresh (snd (Np.shape X)))
              (length_zeros _)) as [_ Heq].
  unfold spec_fit. rewrite Hfst, Hsnd in Heq. cbn [fresh weights bias] in Heq.
  rewrite <- Heq. cbn [fst snd]. rewrite Hsnd.
  destruct (Nat.iter _ _ _); reflexivity.
Qed.

(** One row of fifteen zeros, labelled 1, for two epochs. *)
Lemma fit_is_batch_gradient_descent_witness :
  fit one_row [1] 2 (1 / 2) (init None 0) =
  (inr tt,
   {| weights := fst (spec_fit 1 15 [zeros 15] [1] (Z.to_nat 2) (1 / 2));
      bias := snd (spec_fit 1 15 [zeros 15] [1] (Z.to_nat 2) (1 / 2)) |}).
Proof.
  apply (fit_is_batch_gradient_descent
           one_row [1] 2 (1 / 2) (init None 0) 1).
  - split; [reflexivity|]. repeat constructor.
  - reflexivity.
  - lia.
  - reflexivity.
  - lia.
Defined.

(** C4 does not hold as worded: a matrix of no rows and fifteen columns with
    no labels is well formed, yet one epoch on it raises instead of
    performing a step. *)
Lemma fit_no_rows_does_not_iterate :
  Np.wf no_rows /\
  fit no_rows [] 1 1 (init None 0)
  = (inl ZeroDivisionError, fresh 15) /\
  fit no_rows [] 1 1 (init None 0) <>
  (inr tt,
   {| weights := fst (spec_fit 0 15 [] [] (Z.to_nat 1) 1);
      bias := snd (spec_fit 0 15 [] [] (Z.to_nat 1) 1) |}).
Proof.
  assert (H : fit no_rows [] 1 1 (init None 0)
              = (inl ZeroDivisionError, fresh 15)).
  { rewrite fit_unfold. change (Z.to_nat 1) with 1%nat.
    cbn [for_range]. unfold bind at 1.
    rewrite epoch_no_row; reflexivity. }
  split; [|split].
  - split; [reflexivity|constructor].
  - exact H.
  - rewrite H. discriminate.
Qed.

(** C9: with no row and at least one epoch, [fit] raises on the division by
    the sample count and leaves the reset attributes; with at least one row
    the division never raises. *)
Theorem fit_needs_a_row (X : Np.ndarray2) (y : list R) (epochs : Z) (lr : R)
  (self : Model) :
  Np.wf X ->
  (1 <= epochs)%Z ->
  (fst (Np.shape X) = 0%nat ->
   fit X y epochs lr self
   = (inl ZeroDivisionError, fresh (snd (Np.shape X)))) /\
  ((1 <= fst (Np.shape X))%nat ->
   fst (fit X y epochs lr self) <> inl ZeroDivisionError).
Proof.
  intros Hwf He. split.
  - intros H0. rewrite fit_unfold.
    destruct (Z.to_nat epochs) as [|e] eqn:E; [lia|].
    cbn [for_range]. unfold bind at 1.
    rewrite epoch_no_row; [reflexivity|assumption|apply length_zeros].
  - intros Hn.
    destruct (Nat.eq_dec (length y) (fst (Np.shape X))) as [Hy|Hy].
    + destruct (proj2 (proj2 (fit_outcomes X y epochs lr self Hwf Hn))
                  (or_introl Hy)) as [self' [H _]].
      rewrite H. discriminate.
    + destruct (Nat.eq_dec (length y) 1) as [Hy1|Hy1].
      * destruct (proj2 (proj2 (fit_outcomes X y epochs lr self Hwf Hn))
                    (or_intror Hy1)) as [self' [H _]].
        rewrite H. discriminate.
      * rewrite (proj1 (proj2 (fit_outcomes X y epochs lr self Hwf Hn))
                   He Hy Hy1).
        discriminate.
Qed.

(** An empty matrix of fifteen columns, and a matrix of one row. *)
Lemma fit_needs_a_row_witness :
  fit no_rows [] 1 1 (init None 0)
  = (inl ZeroDivisionError, fresh 15) /\
  fst (fit one_row [1] 1 1 (init None 0))
  <> inl ZeroDivisionError.
Proof.
  split.
  - refine (proj1 (fit_needs_a_row no_rows [] 1 1
                     (init None 0) _ _) _).
    + split; [reflexivity|constructor].
    + lia.
    + reflexivity.
  - refine (proj2 (fit_needs_a_row one_row [1] 1 1
                     (init None 0) _ _) _).
    + split; [reflexivity|]. repeat constructor.
    + lia.
    + simpl. lia.
Defined.

(** ** Sample evaluations *)

Section Samples.

Example split_keeps_empty_fields :
  Py.split "ab::c:" ":" = ["ab"; ""; "c"; ""]%string.
Proof. reflexivity. Qed.

Example replace_is_one_pass : Py.replace "hthttp://tp://x" "http://" "" = "http://x".
Proof. reflexivity. Qed.

Example count_does_not_overlap : Py.count "aaaa" "aa" = 2%Z.
Proof. reflexivity. Qed.

Example find_absent : Py.find "abc" "/" = (-1)%Z.
Proof. reflexivity. Qed.

Example isdigit_empty : Py.isdigit "" = false.
Proof. reflexivity. Qed.

Example pattern_accepts_quad : Re.match_ ip_pattern "192.168.1.1" = true.
Proof. reflexivity. Qed.

Example pattern_rejects_long_group : Re.match_ ip_pattern "1234.1.1.1" = false.
Proof. reflexivity. Qed.

Example pattern_rejects_three_groups : Re.match_ ip_pattern "10.0.1" = false.
Proof. reflexivity. Qed.

Example pattern_rejects_name : Re.match_ ip_pattern "example.com" = false.
Proof. reflexivity. Qed.

Example url_parts :
  (clean_url "https://www.google.com/search?q=test",
   host "https://www.google.com/search?q=test",
   path_and_query "https://www.google.com/search?q=test",
   path "https://www.google.com/search?q=test")
  = ("www.google.com/search?q=test", "www.google.com", "/search?q=test",
     "/search")%string.
Proof. reflexivity. Qed.

Example https_feature :
  nth 4 (extract_features "https://a.com") 0 = 1 /\
  nth 4 (extract_features "http://a.com") 0 = 0.
Proof. split; reflexivity. Qed.

Example shortener_feature : nth 13 (extract_features "http://bit.ly/abc") 0 = 1.
Proof. reflexivity. Qed.

Example tld_feature :
  nth 14 (extract_features "http://evil.tk") 0 = 1 /\
  nth 14 (extract_features "http://evil.com") 0 = 0.
Proof. split; reflexivity. Qed.

Example port_feature :
  nth 12 (extract_features "http://10.0.0.1:8080/a") 0 = 1 /\
  nth 12 (extract_features "http://10.0.0.1:/a") 0 = 0.
Proof. split; reflexivity. Qed.

End Samples.

(** * Further properties of the script *)

(** ** Host, path and query *)

Section UrlParts.

Lemma find_from_char (c : ascii) (s : string) : forall i,
  Py.contains (String c "") s = true ->
  Py.find_from (String c "") s i = (i + Z.of_nat (first_index c s))%Z.
Proof.
  induction s as [|d s IH]; intros i H; [discriminate|].
  rewrite contains_char_cons in H. cbn [Py.find_from first_index].
  rewrite prefix_char. destruct (Ascii.eqb c d); [lia|].
  rewrite IH by assumption. lia.
Qed.

Lemma first_index_absent (c : ascii) (s : string) :
  Py.contains (String c "") s = false -> first_index c s = String.length s.
Proof.
  induction s as [|d s IH]; intros H; [reflexivity|].
  rewrite contains_char_cons in H. apply orb_false_iff in H.
  destruct H as [Hc Hs]. cbn [first_index String.length]. rewrite Hc.
  now rewrite IH.
Qed.

Lemma first_index_le (c : ascii) (s : string) :
  (first_index c s <= String.length s)%nat.
Proof.
  induction s as [|d s IH]; simpl; [lia|]. destruct (Ascii.eqb c d); lia.
Qed.

Lemma guarded_find (c : ascii) (s : string) :
  (if Py.contains (String c "") s then Py.find s (String c "") else Py.len s)
  = Z.of_nat (first_index c s).
Proof.
  destruct (Py.contains (String c "") s) eqn:E.
  - unfold Py.find. now rewrite find_from_char.
  - unfold Py.len. now rewrite first_index_absent.
Qed.

Lemma slice_bound_inside (s : string) (m : nat) :
  (m <= String.length s)%nat -> Py.slice_bound s (Z.of_nat m) = m.
Proof.
  intros H. unfold Py.slice_bound, Py.len.
  destruct (Z.of_nat m <? 0)%Z eqn:E; lia.
Qed.

Lemma substring_all (s : string) : substring 0 (String.length s) s = s.
Proof. induction s as [|c s IH]; simpl; congruence. Qed.

Lemma cut_at_delimiter (a b : ascii) (s : string) :
  s = substring 0 (Nat.min (first_index a s) (first_index b s)) s
      ++ substring (Nat.min (first_index a s) (first_index b s))
           (String.length s - Nat.min (first_index a s) (first_index b s)) s /\
  Py.contains (String a "")
    (substring 0 (Nat.min (first_index a s) (first_index b s)) s) = false /\
  Py.contains (String b "")
    (substring 0 (Nat.min (first_index a s) (first_index b s)) s) = false /\
  (substring (Nat.min (first_index a s) (first_index b s))
     (String.length s - Nat.min (first_index a s) (first_index b s)) s = "" \/
   String.prefix (String a "")
     (substring (Nat.min (first_index a s) (first_index b s))
        (String.length s - Nat.min (first_index a s) (first_index b s)) s)
   = true \/
   String.prefix (String b "")
     (substring (Nat.min (first_index a s) (first_index b s))
        (String.length s - Nat.min (first_index a s) (first_index b s)) s)
   = true).
Proof.
  induction s as [|d s IH]; [cbn; auto|].
  cbn [first_index].
  destruct (Ascii.eqb a d) eqn:Ea.
  - apply Ascii.eqb_eq in Ea. subst d.
    cbn [Nat.min substring String.length Nat.sub append].
    rewrite substring_all.
    split; [reflexivity|]. split; [reflexivity|]. split; [reflexivity|].
    right. left. now rewrite prefix_char, Ascii.eqb_refl.
  - destruct (Ascii.eqb b d) eqn:Eb.
    + apply Ascii.eqb_eq in Eb. subst d. rewrite Nat.min_0_r.
      cbn [substring String.length Nat.sub append].
      rewrite substring_all.
      split; [reflexivity|]. split; [reflexivity|]. split; [reflexivity|].
      right. right. now rewrite prefix_char, Ascii.eqb_refl.
    + rewrite <- Nat.succ_min_distr.
      destruct IH as [H1 [H2 [H3 H4]]].
      cbn [substring String.length Nat.sub].
      split; [|split; [|split]].
      * cbn [append]. now rewrite <- H1.
      * now rewrite contains_char_cons, Ea, H2.
      * now rewrite contains_char_cons, Eb, H3.
      * exact H4.
Qed.

Lemma host_end_index (url : string) :
  host_end url =
  Z.of_nat (Nat.min (first_index "/" (clean_url url))
                    (first_index "?" (clean_url url))).
Proof.
  unfold host_end.
  rewrite (guarded_find "/"), (guarded_find "?"). lia.
Qed.

End UrlParts.

Lemma host_partition (url : string) :
  clean_url url = host url ++ path_and_query url /\
  Py.contains "/" (host url) = false /\
  Py.contains "?" (host url) = false /\
  (path_and_query url = "" \/
   String.prefix "/" (path_and_query url) = true \/
   String.prefix "?" (path_and_query url) = true).
Proof.
  unfold host, path_and_query, Py.slice_to, Py.slice_from.
  rewrite host_end_index.
  rewrite slice_bound_inside
    by (etransitivity; [apply Nat.le_min_l | apply first_index_le]).
  apply cut_at_delimiter.
Qed.

(** X1: the cleaned address is the host followed by the path and query; the
    host holds neither [/] nor [?]; and what follows the host is empty or
    starts with one of the two. *)
Theorem host_and_rest_partition (url : string) :
  clean_url url = host url ++ path_and_query url /\
  Py.contains "/" (host url) = false /\
  Py.contains "?" (host url) = false /\
  (path_and_query url = "" \/
   String.prefix "/" (path_and_query url) = true \/
   String.prefix "?" (path_and_query url) = true).
Proof. apply host_partition. Qed.

(** X2: the path is the start of what follows the host, it holds no [?], it
    is empty or starts with [/], and what comes after it is empty or starts
    with [?]. *)
Theorem path_is_prefix_before_query (url : string) :
  exists query,
    path_and_query url = path url ++ query /\
    Py.contains "?" (path url) = false /\
    (path url = "" \/ String.prefix "/" (path url) = true) /\
    (query = "" \/ String.prefix "?" query = true).
Proof.
  destruct (host_partition url) as [_ [_ [_ Hpq]]].
  assert (Hparts : exists query,
             path_and_query url = path url ++ query /\
             Py.contains "?" (path url) = false /\
             (query = "" \/ String.prefix "?" query = true)).
  { unfold path. destruct (Py.contains "?" (path_and_query url)) eqn:E.
    - apply (split_first_prefix "?").
    - exists "". split; [|split]; auto.
      clear. induction (path_and_query url); simpl; congruence. }
  destruct Hparts as [query [H1 [H2 H3]]].
  exists query. repeat split; try assumption.
  destruct (path url) as [|c p] eqn:Ep; [now left|right].
  rewrite H1 in Hpq.
  change (String c p ++ query) with (String c (p ++ query)) in Hpq.
  rewrite !prefix_char in Hpq. rewrite prefix_char.
  rewrite contains_char_cons in H2. apply orb_false_iff in H2.
  destruct Hpq as [H|[H|H]]; [discriminate|assumption|].
  destruct H2 as [H2 _]. congruence.
Qed.

(** ** The last field of a split, and substrings *)

Section SplitLast.

Variable sep : ascii.

Lemma split_char_unfold (c : ascii) (s : string) :
  Py.split (String c s) (String sep "") =
  if Ascii.eqb sep c then "" :: Py.split s (String sep "")
  else match Py.split s (String sep "") with
       | h :: t => String c h :: t
       | [] => [String c ""]
       end.
Proof.
  unfold Py.split. cbn [Py.split_scan]. rewrite prefix_char.
  change (String.length (String sep "") - 1)%nat with 0%nat.
  destruct (Ascii.eqb sep c); reflexivity.
Qed.

Lemma split_nonempty (s : string) : Py.split s (String sep "") <> [].
Proof.
  destruct s as [|c s]; [discriminate|]. rewrite split_char_unfold.
  destruct (Ascii.eqb sep c); [discriminate|].
  destruct (Py.split s (String sep "")); discriminate.
Qed.

Lemma split_single (s : string) :
  Py.contains (String sep "") s = false -> Py.split s (String sep "") = [s].
Proof.
  induction s as [|c s IH]; intros H; [reflexivity|].
  rewrite contains_char_cons in H. apply orb_false_iff in H.
  destruct H as [Hc Hs]. rewrite split_char_unfold, Hc, (IH Hs). reflexivity.
Qed.

Lemma split_one_field (s h : string) :
  Py.split s (String sep "") = [h] -> Py.contains (String sep "") s = false.
Proof.
  revert h. induction s as [|c s IH]; intros h H; [reflexivity|].
  rewrite split_char_unfold in H. rewrite contains_char_cons.
  destruct (Ascii.eqb sep c).
  - pose proof (split_nonempty s) as Hne.
    destruct (Py.split s (String sep "")); [now destruct Hne|discriminate].
  - destruct (Py.split s (String sep "")) as [|h' t] eqn:E.
    + now destruct (split_nonempty s).
    + injection H as _ Ht. subst t. simpl. now apply (IH h').
Qed.

Lemma last_split_cons (c : ascii) (s : string) :
  Py.last (Py.split (String c s) (String sep "")) =
  if Ascii.eqb sep c || Py.contains (String sep "") s
  then Py.last (Py.split s (String sep ""))
  else String c s.
Proof.
  rewrite split_char_unfold. unfold Py.last.
  destruct (Ascii.eqb sep c); cbn [orb].
  - pose proof (split_nonempty s) as Hne.
    destruct (Py.split s (String sep "")); [now destruct Hne|reflexivity].
  - destruct (Py.contains (String sep "") s) eqn:E.
    + destruct (Py.split s (String sep "")) as [|h t] eqn:Es.
      * now destruct (split_nonempty s).
      * destruct t as [|h' t]; [|reflexivity].
        apply split_one_field in Es. congruence.
    + now rewrite (split_single s E).
Qed.

Lemma last_split_clean (s : string) :
  Py.contains (String sep "") (Py.last (Py.split s (String sep ""))) = false.
Proof.
  induction s as [|c s IH]; [reflexivity|].
  rewrite last_split_cons.
  destruct (Ascii.eqb sep c || Py.contains (String sep "") s) eqn:E;
    [exact IH|].
  now rewrite contains_char_cons.
Qed.

Lemma last_split_suffix (s : string) :
  Py.contains (String sep "") s = true ->
  exists p, s = p ++ String sep (Py.last (Py.split s (String sep ""))).
Proof.
  induction s as [|c s IH]; intros H; [discriminate|].
  rewrite last_split_cons. rewrite contains_char_cons in H. rewrite H.
  destruct (Py.contains (String sep "") s) eqn:E.
  - destruct (IH eq_refl) as [p Hp]. exists (String c p).
    cbn [append]. now rewrite <- Hp.
  - rewrite orb_false_r in H. apply Ascii.eqb_eq in H. subst c.
    exists "". rewrite (split_single s E). reflexivity.
Qed.

Lemma contains_app_sep (p t : string) :
  Py.contains (String sep "") (p ++ String sep t) = true.
Proof.
  induction p as [|c p IH]; cbn [append]; rewrite contains_char_cons.
  - now rewrite Ascii.eqb_refl.
  - rewrite IH. apply orb_true_r.
Qed.

Lemma last_split_app (p t : string) :
  Py.contains (String sep "") t = false ->
  Py.last (Py.split (p ++ String sep t) (String sep "")) = t.
Proof.
  intros Ht. induction p as [|c p IH]; cbn [append]; rewrite last_split_cons.
  - rewrite Ascii.eqb_refl. cbn [orb]. now rewrite (split_single t Ht).
  - rewrite contains_app_sep, orb_true_r. exact IH.
Qed.

End SplitLast.

Section Substrings.

Lemma contains_occurs (sub s : string) :
  Py.contains sub s = true <-> occurs_in sub s.
Proof.
  split.
  - induction s as [|c s IH]; intros H; rewrite contains_unfold in H;
      apply orb_true_iff in H; destruct H as [H|H].
    + exists "", (substring (String.length sub)
                            (String.length "" - String.length sub) "").
      now apply prefix_split.
    + discriminate.
    + exists "", (substring (String.length sub)
                            (String.length (String c s) - String.length sub)
                            (String c s)).
      now apply prefix_split.
    + destruct (IH H) as [a [b Hab]]. exists (String c a), b.
      cbn [append]. now rewrite <- Hab.
  - intros [a [b H]]. subst s. induction a as [|c a IH].
    + cbn [append]. rewrite contains_unfold, prefix_app. reflexivity.
    + cbn [append]. rewrite contains_unfold.
      rewrite IH. apply orb_true_r.
Qed.

Lemma digits_hold_no_colon (d : string) :
  Py.all_chars Py.isdigit_char d = true -> Py.contains ":" d = false.
Proof.
  induction d as [|c d IH]; intros H; [reflexivity|].
  cbn [Py.all_chars] in H. apply andb_true_iff in H. destruct H as [Hc Hd].
  rewrite contains_char_cons, (IH Hd), orb_false_r.
  apply Ascii.eqb_neq. intros E. subst c. discriminate.
Qed.

Lemma in_set_spec (x : string) (s : list string) :
  in_set x s = true <-> In x s.
Proof.
  unfold in_set. rewrite existsb_exists. split.
  - intros [t [Hin Heq]]. apply String.eqb_eq in Heq. now subst t.
  - intros H. exists x. split; [assumption|apply String.eqb_refl].
Qed.

End Substrings.

(** X3: entry 14 is 1.0 exactly when the host ends with a dot followed by one
    of the eight listed top-level domains. *)
Theorem suspicious_tld_feature (url : string) :
  nth 14 (extract_features url) 0 = 1 <->
  exists t, In t suspicious_tlds /\ ends_with (host url) ("." ++ t).
Proof.
  rewrite extract_features_unfold. cbn [nth]. rewrite flag_true, in_set_spec.
  unfold tld. split.
  - intros H. destruct (Py.contains "." (host url)) eqn:E.
    + exists (Py.last (Py.split (host url) ".")). split; [assumption|].
      apply (last_split_suffix "." _ E).
    + simpl in H. repeat (destruct H as [H|H]; [discriminate|]). contradiction.
  - intros [t [Hin [p Hp]]]. rewrite Hp.
    change ("." ++ t) with (String "." t).
    rewrite contains_app_sep, last_split_app; [assumption|].
    simpl in Hin.
    repeat (destruct Hin as [Hin|Hin]; [subst t; reflexivity|]).
    contradiction.
Qed.

(** A host under [.xyz], with a port-free path. *)
Lemma suspicious_tld_feature_witness :
  nth 14 (extract_features "https://login.shop.xyz/a?b=1") 0 = 1.
Proof.
  apply (proj2 (suspicious_tld_feature "https://login.shop.xyz/a?b=1")).
  exists "xyz". split.
  - simpl. tauto.
  - exists "login.shop". reflexivity.
Defined.

(** X4: entry 12 is 1.0 exactly when the host ends with a colon followed by
    a non-empty run of digits. *)
Theorem port_feature_characterised (url : string) :
  nth 12 (extract_features url) 0 = 1 <->
  exists d, Py.isdigit d = true /\ ends_with (host url) (":" ++ d).
Proof.
  rewrite extract_features_unfold. cbn [nth]. rewrite flag_true.
  unfold has_port. rewrite andb_true_iff. split.
  - intros [Hc Hd]. exists (Py.last (Py.split (host url) ":")).
    split; [assumption|]. apply (last_split_suffix ":" _ Hc).
  - intros [d [Hd [p Hp]]]. rewrite Hp.
    change (":" ++ d) with (String ":" d).
    rewrite contains_app_sep. split; [reflexivity|].
    rewrite last_split_app; [assumption|].
    unfold Py.isdigit in Hd. apply andb_true_iff in Hd.
    now apply digits_hold_no_colon.
Qed.

(** An address and port. *)
Lemma port_feature_characterised_witness :
  nth 12 (extract_features "http://10.0.0.1:8080/a") 0 = 1.
Proof.
  apply (proj2 (port_feature_characterised "http://10.0.0.1:8080/a")).
  exists "8080". split; [reflexivity|]. exists "10.0.0.1". reflexivity.
Defined.

(** X5: entry 13 is 1.0 exactly when one of the five shortener names occurs
    somewhere in the host, not only as the whole host. *)
Theorem shortener_feature_is_substring (url : string) :
  nth 13 (extract_features url) 0 = 1 <->
  exists s, In s shorteners /\ occurs_in s (host url).
Proof.
  rewrite extract_features_unfold. cbn [nth]. rewrite flag_true.
  rewrite existsb_exists. split.
  - intros [s [Hin Hc]]. exists s. split; [assumption|].
    now apply contains_occurs.
  - intros [s [Hin Ho]]. exists s. split; [assumption|].
    now apply contains_occurs.
Qed.

(** A host that is no shortener but holds the letters of one. *)
Lemma shortener_feature_is_substring_witness :
  nth 13 (extract_features "https://microsoft.com/") 0 = 1.
Proof.
  apply (proj2 (shortener_feature_is_substring "https://microsoft.com/")).
  exists "t.co". split.
  - simpl. tauto.
  - exists "microsof", "m". reflexivity.
Defined.

(** ** More on the entropy *)

Section EntropyOrder.

Lemma entropy_loop_sum (L : Z) (counts : list Z) : forall e,
  entropy_loop L counts e = e - Np.sum (map (entropy_term L) counts).
Proof.
  induction counts as [|v counts IH]; intros e.
  - unfold entropy_loop. simpl. lra.
  - change (entropy_loop L (v :: counts) e)
      with (entropy_loop L counts (e - entropy_term L v)).
    rewrite IH. simpl. lra.
Qed.

Lemma sum_permutation (l1 l2 : list R) :
  Permutation l1 l2 -> Np.sum l1 = Np.sum l2.
Proof.
  induction 1 as [|x l1 l2 _ IH|x y l|l1 l2 l3 _ IH1 _ IH2]; simpl;
    lra.
Qed.

Lemma chars_empty (text : string) : chars text = [] -> text = "".
Proof. destruct text; [reflexivity|discriminate]. Qed.

Lemma char_freq_keys_permutation (t1 t2 : string) :
  Permutation (chars t1) (chars t2) ->
  Permutation (dict_keys (char_freq t1)) (dict_keys (char_freq t2)).
Proof.
  intros HP.
  destruct (char_freq_inv t1) as [Hnd1 Hk1 _ _].
  destruct (char_freq_inv t2) as [Hnd2 Hk2 _ _].
  apply NoDup_Permutation; try assumption.
  intros k. rewrite Hk1, Hk2. fold (chars t1) (chars t2). split; intros H.
  - now apply (Permutation_in _ HP).
  - now apply (Permutation_in _ (Permutation_sym HP)).
Qed.







Lemma sum_nonneg_zero (l : list R) :
  Forall (fun x => 0 <= x) l -> Np.sum l = 0 -> Forall (eq 0) l.
Proof.
  induction 1 as [|x l Hx Hall IH]; intros Hs; [constructor|].
  change (Np.sum (x :: l)) with (x + Np.sum l) in Hs.
  assert (Hl : 0 <= Np.sum l).
  { clear -Hall. induction Hall as [|z l Hz _ IHl]; [simpl; lra|].
    change (Np.sum (z :: l)) with (z + Np.sum l). lra. }
  constructor; [lra|]. apply IH. lra.
Qed.

Lemma sum_map_opp {A : Type} (f : A -> R) (vs : list A) :
  Np.sum (map (fun v => - f v) vs) = - Np.sum (map f vs).
Proof.
  induction vs as [|v vs IH]; [simpl; lra|].
  change (Np.sum (map (fun v0 => - f v0) (v :: vs)))
    with (- f v + Np.sum (map (fun v0 => - f v0) vs)).
  change (Np.sum (map f (v :: vs))) with (f v + Np.sum (map f vs)).
  rewrite IH. lra.
Qed.

Lemma term_nonpos (L v : Z) : (1 <= v <= L)%Z -> entropy_term L v <= 0.
Proof.
  intros [Hv1 Hv2]. unfold entropy_term.
  assert (HL : 0 < IZR L) by (apply IZR_lt; lia).
  assert (Hv : 0 < IZR v) by (apply IZR_lt; lia).
  assert (HvL : IZR v <= IZR L) by now apply IZR_le.
  assert (Hp : 0 < IZR v / IZR L <= 1).
  { split; [now apply Rdiv_lt_0_compat|].
    apply (Rmult_le_reg_r (IZR L)); [assumption|].
    unfold Rdiv. rewrite Rmult_assoc, Rinv_l by lra. lra. }
  pose proof (log2_nonpos _ Hp). destruct Hp as [Hp _]. nra.
Qed.

Lemma term_zero (L v : Z) :
  (1 <= v <= L)%Z -> entropy_term L v = 0 -> v = L.
Proof.
  intros [Hv1 Hv2] H. unfold entropy_term, log2 in H.
  assert (HL : 0 < IZR L) by (apply IZR_lt; lia).
  assert (Hv : 0 < IZR v) by (apply IZR_lt; lia).
  assert (Hp : 0 < IZR v / IZR L) by now apply Rdiv_lt_0_compat.
  pose proof ln2_pos as H2.
  assert (Hln : ln (IZR v / IZR L) = 0).
  { apply Rmult_integral in H. destruct H as [H|H]; [lra|].
    unfold Rdiv in H. apply Rmult_integral in H. destruct H as [H|H].
    - exact H.
    - assert (0 < / ln 2) by now apply Rinv_0_lt_compat. lra. }
  rewrite <- ln_1 in Hln. apply ln_inv in Hln; [|assumption|lra].
  apply eq_IZR. apply (Rmult_eq_compat_r (IZR L)) in Hln.
  unfold Rdiv in Hln. rewrite Rmult_assoc, Rinv_l in Hln by lra. lra.
Qed.

End EntropyOrder.

(** X6: the entropy of a string depends only on how often each character
    occurs, not on the order of the characters. *)
Theorem calculate_entropy_order_free (t1 t2 : string) :
  Permutation (chars t1) (chars t2) ->
  calculate_entropy t1 = calculate_entropy t2.
Proof.
  intros HP.
  destruct (string_dec t1 "") as [E1|N1].
  - subst t1. apply Permutation_nil in HP. apply chars_empty in HP.
    now subst t2.
  - assert (N2 : t2 <> "").
    { intros E. subst t2. apply Permutation_sym, Permutation_nil in HP.
      now apply chars_empty in HP. }
    rewrite !calculate_entropy_loop, !entropy_loop_sum by assumption.
    assert (HL : Py.len t1 = Py.len t2).
    { pose proof (Permutation_length HP) as Hlen. unfold chars in Hlen.
      rewrite !length_chars in Hlen. unfold Py.len. now rewrite Hlen. }
    rewrite !char_freq_values, HL. f_equal.
    apply sum_permutation, Permutation_map.
    rewrite (map_ext _
               (fun k => Z.of_nat (count_occ ascii_dec (chars t2) k))).
    + apply Permutation_map. now apply char_freq_keys_permutation.
    + intros k. f_equal.
      now apply (proj1 (Permutation_count_occ ascii_dec _ _) HP).
Qed.

(** Two spellings with the same letters. *)
Lemma calculate_entropy_order_free_witness :
  calculate_entropy "listen" = calculate_entropy "silent".
Proof.
  apply calculate_entropy_order_free.
  apply (Permutation_count_occ ascii_dec). intros c.
  cbn [chars list_ascii_of_string count_occ].
  repeat match goal with
         | |- context [ascii_dec ?a c] => destruct (ascii_dec a c)
         end; try reflexivity; congruence.
Defined.



(** X8: on a non-empty string the entropy is 0 exactly when the string
    repeats a single character. *)
Theorem calculate_entropy_zero_iff (text : string) :
  text <> "" ->
  (calculate_entropy text = 0 <-> distinct_chars text = 1%nat).
Proof.
  intros Hne. split.
  - intros H0. rewrite calculate_entropy_loop, entropy_loop_sum in H0
      by assumption.
    pose proof (char_freq_bounds text) as Hb.
    assert (Hall : Forall (eq (Py.len text)) (dict_values (char_freq text))).
    { assert (Hz : Forall (eq 0)
                     (map (fun v => - entropy_term (Py.len text) v)
                          (dict_values (char_freq text)))).
      { apply sum_nonneg_zero.
        - apply Forall_map. eapply Forall_impl; [|exact Hb].
          intros v Hv. cbv beta. pose proof (term_nonpos _ _ Hv). lra.
        - rewrite sum_map_opp. lra. }
      rewrite Forall_map in Hz.
      apply Forall_forall. intros v Hv.
      rewrite Forall_forall in Hz, Hb. symmetry.
      apply term_zero; [now apply Hb|]. specialize (Hz v Hv). cbv beta in Hz.
      lra. }
    destruct (char_freq_inv text) as [_ _ _ Hs].
    rewrite (zsum_const _ _ Hall) in Hs.
    pose proof (char_freq_distinct text) as Hd.
    fold (chars text) in Hd. fold (distinct_chars text) in Hd.
    unfold dict_values, dict_keys in *. rewrite length_map in Hs, Hd.
    rewrite Hd, length_chars in Hs. unfold Py.len in Hs.
    assert (HL : (1 <= String.length text)%nat)
      by (destruct text; [congruence|simpl; lia]).
    nia.
  - intros Hk.
    destruct (chars_nonempty text Hne) as [c Hc].
    assert (Hone : forall c', In c' (chars text) -> c' = c).
    { intros c' Hc'. unfold distinct_chars in Hk.
      apply (nodup_In ascii_dec) in Hc, Hc'.
      destruct (nodup ascii_dec (chars text)) as [|x [|x' l]];
        try discriminate.
      destruct Hc as [Hc|[]], Hc' as [Hc'|[]]. congruence. }
    rewrite (uniform_entropy text (occurrences text c)).
    + rewrite Hk. simpl. apply log2_1.
    + assumption.
    + intros c' Hc'. now rewrite (Hone c' Hc').
Qed.

(** A run of one letter, and the entropy it has. *)
Lemma calculate_entropy_zero_iff_witness :
  calculate_entropy "aaaa" = 0.
Proof.
  apply (proj2 (calculate_entropy_zero_iff "aaaa" ltac:(discriminate))).
  reflexivity.
Defined.

(** ** The sigmoid and the decision rule *)

Section Sigmoid.

Lemma sigmoid_pos_lt_1 (x : R) : 0 < sigmoid x < 1.
Proof.
  unfold sigmoid. pose proof (exp_pos (- x)) as He.
  assert (Hd : 0 < 1 + exp (- x)) by lra.
  split.
  - apply Rdiv_lt_0_compat; lra.
  - apply (Rmult_lt_reg_r (1 + exp (- x))); [assumption|].
    unfold Rdiv. rewrite Rmult_assoc, Rinv_l by lra. lra.
Qed.

Lemma sigmoid_opp (x : R) : sigmoid (- x) = 1 - sigmoid x.
Proof.
  unfold sigmoid. rewrite Ropp_involutive, exp_Ropp.
  pose proof (exp_pos x) as He. field. split; lra.
Qed.

Lemma sigmoid_increasing (x y : R) : x < y -> sigmoid x < sigmoid y.
Proof.
  intros H. unfold sigmoid.
  pose proof (exp_pos (- x)) as Hx. pose proof (exp_pos (- y)) as Hy.
  assert (He : exp (- y) < exp (- x)) by (apply exp_increasing; lra).
  unfold Rdiv. rewrite !Rmult_1_l.
  apply Rinv_lt_contravar; [|lra].
  apply Rmult_lt_0_compat; lra.
Qed.

Lemma sigmoid_above_half (z : R) : sigmoid z > 1 / 2 <-> z > 0.
Proof.
  rewrite <- sigmoid_0. split; intros H.
  - destruct (Rlt_or_le 0 z) as [Hz|Hz]; [assumption|].
    destruct Hz as [Hz|Hz].
    + pose proof (sigmoid_increasing _ _ Hz). lra.
    + subst z. lra.
  - now apply sigmoid_increasing.
Qed.

End Sigmoid.

(** X9: the sigmoid takes its values strictly between 0 and 1, is strictly
    increasing, and satisfies [sigmoid (-x) = 1 - sigmoid x]. *)
Theorem sigmoid_shape :
  (forall x, 0 < sigmoid x < 1) /\
  (forall x y, x < y -> sigmoid x < sigmoid y) /\
  (forall x, sigmoid (- x) = 1 - sigmoid x).
Proof.
  split; [exact sigmoid_pos_lt_1|].
  split; [exact sigmoid_increasing | exact sigmoid_opp].
Qed.

(** The scores 0 and 1. *)
Lemma sigmoid_shape_witness : sigmoid 0 < sigmoid 1.
Proof.
  destruct sigmoid_shape as [_ [H _]]. apply H. lra.
Defined.

Lemma predict_cases (self : Model) (v : list R) :
  (length (weights self) = length v ->
   predict v self
   = (inr (sigmoid (Np.vdot (weights self) v + bias self)), self) /\
   0 < sigmoid (Np.vdot (weights self) v + bias self) < 1) /\
  (length (weights self) <> length v ->
   predict v self = (inl ValueError, self)).
Proof.
  unfold predict, bind, lift, get_weights, get_bias, ret, Np.dot. split.
  - intros H. rewrite H, Nat.eqb_refl. split; [reflexivity|].
    apply sigmoid_pos_lt_1.
  - intros H. apply Nat.eqb_neq in H. now rewrite H.
Qed.

(** X10: [predict] returns the sigmoid of the weighted sum plus the bias
    when the feature vector is as long as the weight vector, and raises
    numpy's shape error otherwise; in both cases the model is left as it
    was. In exact arithmetic the value returned is strictly between 0 and 1;
    the double of the program can round to exactly 0.0 or 1.0. *)
Theorem predict_outcomes (self : Model) (v : list R) :
  (length (weights self) = length v ->
   predict v self
   = (inr (sigmoid (Np.vdot (weights self) v + bias self)), self) /\
   0 < sigmoid (Np.vdot (weights self) v + bias self) < 1) /\
  (length (weights self) <> length v ->
   predict v self = (inl ValueError, self)).
Proof. apply predict_cases. Qed.

(** Two weights against two and against three features. *)
Lemma predict_outcomes_witness :
  predict [1; 1] (mk_Model [1; 2] 0)
  = (inr (sigmoid (Np.vdot [1; 2] [1; 1] + 0)), mk_Model [1; 2] 0) /\
  predict [1; 1; 1] (mk_Model [1; 2] 0) = (inl ValueError, mk_Model [1; 2] 0).
Proof.
  split.
  - apply (proj1 (predict_outcomes (mk_Model [1; 2] 0) [1; 1])).
    reflexivity.
  - apply (proj2 (predict_outcomes (mk_Model [1; 2] 0) [1; 1; 1])).
    simpl. lia.
Defined.

(** X11: in exact arithmetic, with the 0.5 threshold of [main], a feature
    vector is called phishing exactly when its weighted sum plus the bias is
    positive. In doubles a positive score below about 1.1e-16 rounds to a
    probability of exactly 0.5 and is called safe. *)
Theorem verdict_is_sign_of_score (self : Model) (v : list R) :
  length (weights self) = length v ->
  exists prob,
    predict v self = (inr prob, self) /\
    (verdict prob = "PHISHING" <-> Np.vdot (weights self) v + bias self > 0) /\
    (verdict prob = "SAFE" <-> Np.vdot (weights self) v + bias self <= 0).
Proof.
  intros H. destruct (proj1 (predict_cases self v) H) as [Hp _].
  exists (sigmoid (Np.vdot (weights self) v + bias self)).
  split; [exact Hp|].
  pose proof (sigmoid_above_half (Np.vdot (weights self) v + bias self)) as Hs.
  unfold verdict.
  destruct (Rgt_dec (sigmoid (Np.vdot (weights self) v + bias self)) (1 / 2))
    as [Hgt|Hle].
  - split; split; intros H'; try reflexivity; try discriminate.
    + now apply Hs.
    + apply Hs in Hgt. lra.
  - split; split; intros H'; try reflexivity; try discriminate.
    + apply Hs in H'. contradiction.
    + destruct (Rle_or_lt (Np.vdot (weights self) v + bias self) 0)
        as [Hz|Hz]; [assumption|].
      apply Hs in Hz. contradiction.
Qed.

(** The untrained model calls nothing phishing. *)
Lemma verdict_is_sign_of_score_witness :
  exists prob,
    predict (zeros 15) (init None 0) = (inr prob, init None 0) /\
    (verdict prob = "PHISHING" <->
     Np.vdot (weights (init None 0)) (zeros 15) + bias (init None 0) > 0) /\
    (verdict prob = "SAFE" <->
     Np.vdot (weights (init None 0)) (zeros 15) + bias (init None 0) <= 0).
Proof.
  apply (verdict_is_sign_of_score (init None 0) (zeros 15)). reflexivity.
Defined.

(** ** More on training *)

Section Training.

Lemma vdot_zero_left (a b : list R) :
  Forall (fun x => x = 0) a -> Np.vdot a b = 0.
Proof.
  intros Ha. revert b. induction Ha as [|x a Hx _ IH]; intros b.
  - reflexivity.
  - destruct b as [|z b]; [reflexivity|]. subst x.
    change (Np.vdot (0 :: a) (z :: b)) with (0 * z + Np.vdot a b).
    rewrite IH. lra.
Qed.

Lemma nth_zeros (j m : nat) : nth j (zeros m) 0 = 0.
Proof. apply nth_repeat. Qed.

Variables (X : Np.ndarray2) (y : list R) (lr : R).

Hypothesis Hwf : Np.wf X.

Lemma nth_descend (e1 e2 : list R) (self : Model) (j : nat) :
  length (weights self) = snd (Np.shape X) ->
  (j < snd (Np.shape X))%nat ->
  nth j (weights (descend X lr e1 e2 self)) 0 =
  nth j (weights self) 0
  - lr * (IZR 1 / IZR (Z.of_nat (fst (Np.shape X)))
          * Np.vdot (map (fun r => nth j r 0) (Np.rows X)) e1).
Proof.
  intros Hw Hj. unfold descend. cbn [weights].
  rewrite zip_sub_index
    by (unfold Np.scale; now rewrite !length_map, length_rows_T).
  rewrite nth_map_seq by lia. f_equal.
  unfold Np.scale, Np.T. cbn [Np.rows]. rewrite !map_map.
  now rewrite nth_map_seq.
Qed.

Lemma descend_zero_column (e1 e2 : list R) (self : Model) (j : nat) :
  length (weights self) = snd (Np.shape X) ->
  zero_column X j ->
  nth j (weights (descend X lr e1 e2 self)) 0 = nth j (weights self) 0.
Proof.
  intros Hw Hz. destruct (Nat.lt_ge_cases j (snd (Np.shape X))) as [Hj|Hj].
  - rewrite nth_descend by assumption.
    rewrite vdot_zero_left; [lra|].
    apply Forall_map. exact Hz.
  - rewrite !nth_overflow; [reflexivity|lia|].
    rewrite length_descend; [lia|assumption].
Qed.

Lemma iter_zero_column (j : nat) (Hz : zero_column X j) : forall e self,
  length (weights self) = snd (Np.shape X) ->
  nth j (weights (Nat.iter e (epoch_state X y lr) self)) 0
  = nth j (weights self) 0.
Proof.
  induction e as [|e IH]; intros self Hw; [reflexivity|].
  rewrite Nat.iter_succ_r, IH by now apply length_epoch_state.
  unfold epoch_state. now apply descend_zero_column.
Qed.

End Training.

Section ExportRecord.

Lemma to_json_reads_back (self : Model) :
  exists json,
    to_json self = (inr json, self) /\
    from_json json = Some self /\
    dict_lookup "weights"
      (match json with PyDict d => d | _ => [] end)
    = Some (PyList (map PyFloat (weights self))).
Proof.
  eexists. split; [reflexivity|]. split; [|reflexivity].
  unfold from_json. cbn [dict_lookup String.eqb Ascii.eqb Bool.eqb].
  rewrite floats_of_map. destruct self; reflexivity.
Qed.

End ExportRecord.


Lemma fit_zero_column (X : Np.ndarray2) (y : list R)
  (epochs : Z) (lr : R) (self : Model) (j : nat) :
  Np.wf X ->
  (1 <= fst (Np.shape X))%nat ->
  length y = fst (Np.shape X) ->
  zero_column X j ->
  exists self',
    fit X y epochs lr self = (inr tt, self') /\
    length (weights self') = snd (Np.shape X) /\
    nth j (weights self') 0 = 0.
Proof.
  intros Hwf Hn Hy Hz.
  exists (Nat.iter (Z.to_nat epochs) (epoch_state X y lr)
            (fresh (snd (Np.shape X)))).
  rewrite fit_unfold, for_range_runs;
    [| assumption | assumption | assumption | apply length_zeros].
  split; [reflexivity|]. split.
  - apply (iter_epoch_state_spec X y lr Hwf Hn Hy). apply length_zeros.
  - rewrite iter_zero_column; [apply nth_zeros | assumption | apply length_zeros].
Qed.

(** X13: in exact arithmetic, a feature that is zero in every training row
    keeps the weight 0: on a matrix with at least one row and as many labels
    as rows, [fit] completes and the weight at the index of an all-zero
    column is exactly 0, for every number of epochs and every real learning
    rate. In doubles this fails when an infinite or overflowing value meets
    the zero, since [inf * 0] is [nan]. *)
Theorem fit_zero_column_zero_weight (X : Np.ndarray2) (y : list R)
  (epochs : Z) (lr : R) (self : Model) (j : nat) :
  Np.wf X ->
  (1 <= fst (Np.shape X))%nat ->
  length y = fst (Np.shape X) ->
  zero_column X j ->
  exists self',
    fit X y epochs lr self = (inr tt, self') /\
    length (weights self') = snd (Np.shape X) /\
    nth j (weights self') 0 = 0.
Proof. apply fit_zero_column. Qed.

(** Two samples whose second feature is always zero. *)
Lemma fit_zero_column_zero_weight_witness :
  exists self',
    fit (Np.mk_ndarray2 (2%nat, 2%nat) [[1; 0]; [2; 0]]) [0; 1] 3 (1 / 2)
        (init None 0)
    = (inr tt, self') /\
    length (weights self') = 2%nat /\
    nth 1 (weights self') 0 = 0.
Proof.
  apply (fit_zero_column_zero_weight
           (Np.mk_ndarray2 (2%nat, 2%nat) [[1; 0]; [2; 0]]) [0; 1] 3 (1 / 2)
           (init None 0) 1).
  - split; [reflexivity|]. repeat constructor.
  - simpl. lia.
  - reflexivity.
  - repeat constructor.
Defined.

(** X14: after a completed [fit], [predict] accepts exactly the vectors with
    one entry per column of the training matrix: it returns a number for
    them and raises numpy's shape error for any other length, keeping the
    trained attributes. In exact arithmetic the number is strictly between 0
    and 1; the double of the program can round to exactly 0.0 or 1.0. *)
Theorem fit_then_predict (X : Np.ndarray2) (y : list R) (epochs : Z)
  (lr : R) (self : Model) (v : list R) :
  Np.wf X ->
  (1 <= fst (Np.shape X))%nat ->
  length y = fst (Np.shape X) \/ length y = 1%nat ->
  exists self',
    fit X y epochs lr self = (inr tt, self') /\
    (length v = snd (Np.shape X) ->
     exists p,
       (fit X y epochs lr ;; predict v) self = (inr p, self') /\
       0 < p < 1) /\
    (length v <> snd (Np.shape X) ->
     (fit X y epochs lr ;; predict v) self = (inl ValueError, self')).
Proof.
  intros Hwf Hn Hy.
  destruct (proj2 (proj2 (fit_outcomes X y epochs lr self Hwf Hn)) Hy)
    as [self' [Hfit Hlen]].
  exists self'. split; [exact Hfit|]. unfold bind. rewrite Hfit. split.
  - intros Hv.
    destruct (proj1 (predict_cases self' v)) as [Hp Hr]; [congruence|].
    eexists. split; [exact Hp|exact Hr].
  - intros Hv. apply (proj2 (predict_cases self' v)). congruence.
Qed.

(** One training row of fifteen features, then a prediction on it. *)
Lemma fit_then_predict_witness :
  exists self',
    fit one_row [1] 5 (1 / 2) (init None 0) = (inr tt, self') /\
    exists p,
      (fit one_row [1] 5 (1 / 2) ;; predict (zeros 15)) (init None 0)
      = (inr p, self') /\
      0 < p < 1.
Proof.
  destruct (fit_then_predict one_row [1] 5 (1 / 2) (init None 0) (zeros 15))
    as [self' [Hfit [Hok _]]].
  - split; [reflexivity|]. repeat constructor.
  - simpl. lia.
  - left. reflexivity.
  - exists self'. split; [exact Hfit|]. apply Hok. reflexivity.
Defined.

(** X15: after a completed [fit], [to_json] exports one weight per column of
    the training matrix together with the bias, and reading the record back
    gives the trained model. *)
Theorem fit_then_export (X : Np.ndarray2) (y : list R) (epochs : Z)
  (lr : R) (self : Model) :
  Np.wf X ->
  (1 <= fst (Np.shape X))%nat ->
  length y = fst (Np.shape X) \/ length y = 1%nat ->
  exists self' ws,
    (fit X y epochs lr ;; to_json) self
    = (inr (PyDict [("weights", PyList (map PyFloat ws));
                    ("bias", PyFloat (bias self'))]), self') /\
    ws = weights self' /\
    length ws = snd (Np.shape X) /\
    from_json (PyDict [("weights", PyList (map PyFloat ws));
                       ("bias", PyFloat (bias self'))]) = Some self'.
Proof.
  intros Hwf Hn Hy.
  destruct (proj2 (proj2 (fit_outcomes X y epochs lr self Hwf Hn)) Hy)
    as [self' [Hfit Hlen]].
  exists self', (weights self'). unfold bind. rewrite Hfit.
  split; [reflexivity|]. split; [reflexivity|]. split; [assumption|].
  destruct (to_json_reads_back self') as [json [Hj [Hr _]]].
  injection Hj as Hj. now subst json.
Qed.

(** Two rows of two features, exported after one epoch. *)
Lemma fit_then_export_witness :
  exists self' ws,
    (fit two_by_two [0; 1] 1 1 ;; to_json) (init None 0)
    = (inr (PyDict [("weights", PyList (map PyFloat ws));
                    ("bias", PyFloat (bias self'))]), self') /\
    ws = weights self' /\
    length ws = 2%nat /\
    from_json (PyDict [("weights", PyList (map PyFloat ws));
                       ("bias", PyFloat (bias self'))]) = Some self'.
Proof.
  apply (fit_then_export two_by_two [0; 1] 1 1 (init None 0)).
  - split; [reflexivity|]. repeat constructor.
  - simpl. lia.
  - left. reflexivity.
Defined.

(** ** The synthetic dataset and the training run *)

Section Dataset.

Lemma length_extract_features (url : string) :
  length (extract_features url) = 15%nat.
Proof. rewrite extract_features_unfold. reflexivity. Qed.

Lemma sum_app (a b : list R) : Np.sum (a ++ b) = Np.sum a + Np.sum b.
Proof.
  induction a as [|x a IH]; [simpl; lra|].
  change (Np.sum ((x :: a) ++ b)) with (x + Np.sum (a ++ b)).
  change (Np.sum (x :: a)) with (x + Np.sum a). rewrite IH. lra.
Qed.

Lemma choice_in (patterns : list string) (g : Rng) :
  patterns <> [] -> In (fst (choice patterns g)) patterns.
Proof.
  intros H. unfold choice. cbn [fst]. apply nth_In.
  apply Nat.mod_upper_bound. destruct patterns; [congruence|discriminate].
Qed.

Lemma dataset_loop_succ (k : nat) (g : Rng) (X : list (list R)) (y : list R) :
  dataset_loop (S k) g X y =
  dataset_loop k (fun i => g (S (S i)))
    ((X ++ [extract_features
              (nth (g 0%nat mod length safe_patterns) safe_patterns "")])
       ++ [extract_features
             (nth (g 1%nat mod length phishing_patterns)
                  phishing_patterns "")])%list
    ((y ++ [0]) ++ [1])%list.
Proof. reflexivity. Qed.

Lemma dataset_loop_inv : forall iterations g X y,
  Forall2 sample_ok X y ->
  Forall2 sample_ok (fst (fst (dataset_loop iterations g X y)))
                    (snd (fst (dataset_loop iterations g X y))) /\
  length (fst (fst (dataset_loop iterations g X y)))
  = (length X + 2 * iterations)%nat /\
  Np.sum (snd (fst (dataset_loop iterations g X y)))
  = Np.sum y + INR iterations.
Proof.
  induction iterations as [|k IH]; intros g X y H.
  - cbn [dataset_loop fst snd]. simpl INR. split; [assumption|].
    split; [lia|lra].
  - rewrite dataset_loop_succ.
    set (u := nth (g 0%nat mod length safe_patterns) safe_patterns "").
    set (u' := nth (g 1%nat mod length phishing_patterns)
                   phishing_patterns "").
    assert (Hu : In u safe_patterns)
      by (apply nth_In, Nat.mod_upper_bound; discriminate).
    assert (Hu' : In u' phishing_patterns)
      by (apply nth_In, Nat.mod_upper_bound; discriminate).
    match goal with
    | |- context [dataset_loop k ?g' ?X' ?y'] =>
        destruct (IH g' X' y') as [H1 [H2 H3]]
    end.
    + apply Forall2_app; [apply Forall2_app; [assumption|]|].
      * constructor; [|constructor]. left. split; [reflexivity|].
        now exists u.
      * constructor; [|constructor]. right. split; [reflexivity|].
        now exists u'.
    + split; [exact H1|]. split.
      * rewrite H2, !length_app. simpl. lia.
      * rewrite H3, !sum_app, S_INR. simpl. lra.
Qed.

Lemma sample_row_length (X : list (list R)) (y : list R) :
  Forall2 sample_ok X y -> Forall (fun r => length r = 15%nat) X.
Proof.
  induction 1 as [|r l X y Hs _ IH]; constructor; [|assumption].
  destruct Hs as [[_ [u [_ ->]]]|[_ [u [_ ->]]]];
    apply length_extract_features.
Qed.

Lemma generated_dataset (n_samples : Z) (g : Rng) :
  (2 <= n_samples)%Z ->
  exists X y g',
    generate_synthetic_dataset n_samples g = (Arr2 X, y, g') /\
    Np.wf X /\
    Np.shape X = ((2 * Z.to_nat (n_samples / 2))%nat, 15%nat) /\
    length y = (2 * Z.to_nat (n_samples / 2))%nat /\
    Forall2 sample_ok (Np.rows X) y /\
    Np.sum y = INR (Z.to_nat (n_samples / 2)).
Proof.
  intros Hn. unfold generate_synthetic_dataset.
  assert (Hit : (1 <= Z.to_nat (n_samples / 2))%nat).
  { assert (1 <= n_samples / 2)%Z by (apply Z.div_le_lower_bound; lia). lia. }
  destruct (dataset_loop_inv (Z.to_nat (n_samples / 2)) g [] []
              (Forall2_nil _)) as [H1 [H2 H3]].
  destruct (dataset_loop (Z.to_nat (n_samples / 2)) g [] [])
    as [[X y] g'].
  cbn [fst snd] in *. simpl length in H2. simpl Np.sum in H3.
  pose proof (sample_row_length X y H1) as Hrows.
  destruct X as [|r X]; [simpl in H2; lia|].
  exists (Np.mk_ndarray2 (length (r :: X), length r) (r :: X)), y, g'.
  assert (Hr : length r = 15%nat) by now inversion Hrows.
  split; [reflexivity|]. split; [|split; [|split; [|split]]].
  - split; [reflexivity|]. cbn [Np.shape Np.rows snd]. now rewrite Hr.
  - cbn [Np.shape]. now rewrite Hr, H2.
  - rewrite <- (Forall2_length H1). exact H2.
  - exact H1.
  - rewrite H3. lra.
Qed.

Lemma patterns_leave_two_features_unset (u : string) :
  In u safe_patterns \/ In u phishing_patterns ->
  nth 9 (extract_features u) 0 = 0 /\ nth 12 (extract_features u) 0 = 0.
Proof.
  intros [H|H]; simpl in H;
    repeat (destruct H as [H|H]; [subst u; split; reflexivity|]);
    contradiction.
Qed.

Lemma generated_columns_unset (X : list (list R)) (y : list R) :
  Forall2 sample_ok X y ->
  Forall (fun r => nth 9 r 0 = 0) X /\ Forall (fun r => nth 12 r 0 = 0) X.
Proof.
  induction 1 as [|r l X y Hs _ [IH1 IH2]]; [split; constructor|].
  assert (Hr : nth 9 r 0 = 0 /\ nth 12 r 0 = 0).
  { destruct Hs as [[_ [u [Hu ->]]]|[_ [u [Hu ->]]]];
      apply patterns_leave_two_features_unset; auto. }
  destruct Hr. split; constructor; assumption.
Qed.

End Dataset.

(** X16: for [n_samples >= 2] and every sequence of random draws,
    [generate_synthetic_dataset] returns a matrix of [2 * (n_samples // 2)]
    rows and 15 columns with as many labels; every row is the feature
    vector of a safe pattern labelled 0 or of a phishing pattern labelled 1,
    and exactly half of the labels are 1. *)
Theorem generate_synthetic_dataset_shape (n_samples : Z) (g : Rng) :
  (2 <= n_samples)%Z ->
  exists X y g',
    generate_synthetic_dataset n_samples g = (Arr2 X, y, g') /\
    Np.wf X /\
    Np.shape X = ((2 * Z.to_nat (n_samples / 2))%nat, 15%nat) /\
    length y = (2 * Z.to_nat (n_samples / 2))%nat /\
    Forall2 sample_ok (Np.rows X) y /\
    Np.sum y = INR (Z.to_nat (n_samples / 2)).
Proof. apply generated_dataset. Qed.

(** Five samples asked for, every draw picking the first pattern. *)
Lemma generate_synthetic_dataset_shape_witness :
  exists X y g',
    generate_synthetic_dataset 5 (fun _ => 0%nat) = (Arr2 X, y, g') /\
    Np.wf X /\
    Np.shape X = ((2 * Z.to_nat (5 / 2))%nat, 15%nat) /\
    length y = (2 * Z.to_nat (5 / 2))%nat /\
    Forall2 sample_ok (Np.rows X) y /\
    Np.sum y = INR (Z.to_nat (5 / 2)).
Proof. apply (generate_synthetic_dataset_shape 5 (fun _ => 0%nat)). lia. Defined.

(** X17: for [n_samples < 2] the synthesizer draws nothing and returns an
    empty one-dimensional array with no labels, and [fit] on it raises while
    unpacking the shape, before it resets the model. *)
Theorem generate_too_few_samples (n_samples : Z) (g : Rng) (epochs : Z)
  (lr : R) (self : Model) :
  (n_samples < 2)%Z ->
  generate_synthetic_dataset n_samples g = (Arr1 [], [], g) /\
  fit_ndarray (Arr1 []) [] epochs lr self = (inl ValueError, self).
Proof.
  intros Hn. split; [|reflexivity].
  unfold generate_synthetic_dataset.
  assert (H : (n_samples / 2 <= 0)%Z).
  { assert (n_samples / 2 < 1)%Z by (apply Z.div_lt_upper_bound; lia). lia. }
  replace (Z.to_nat (n_samples / 2)) with 0%nat by lia. reflexivity.
Qed.

(** One sample asked for. *)
Lemma generate_too_few_samples_witness :
  generate_synthetic_dataset 1 (fun _ => 0%nat) = (Arr1 [], [], fun _ => 0%nat) /\
  fit_ndarray (Arr1 []) [] 10 1 (init None 0) = (inl ValueError, init None 0).
Proof.
  apply (generate_too_few_samples 1 (fun _ => 0%nat) 10 1 (init None 0)). lia.
Defined.

(** X18: in exact arithmetic, whatever the random draws, the number of
    epochs and the real learning rate, training on a generated dataset of at
    least two samples completes with 15 weights, and the weights of the
    features [@] (index 9) and explicit port (index 12) are exactly 0,
    because no pattern of the synthesizer sets them. In doubles this fails
    for an infinite or overflowing learning rate, since [inf * 0] is
    [nan]. *)
Theorem training_never_learns_at_or_port (n_samples : Z) (g : Rng)
  (epochs : Z) (lr : R) (self : Model) :
  (2 <= n_samples)%Z ->
  exists X y g' self',
    generate_synthetic_dataset n_samples g = (X, y, g') /\
    fit_ndarray X y epochs lr self = (inr tt, self') /\
    length (weights self') = 15%nat /\
    nth 9 (weights self') 0 = 0 /\
    nth 12 (weights self') 0 = 0.
Proof.
  intros Hn.
  destruct (generated_dataset n_samples g Hn)
    as [X [y [g' [Hgen [Hwf [Hshape [Hy [Hs _]]]]]]]].
  assert (Hn1 : (1 <= fst (Np.shape X))%nat).
  { rewrite Hshape. cbn [fst].
    assert (1 <= n_samples / 2)%Z by (apply Z.div_le_lower_bound; lia). lia. }
  assert (Hyn : length y = fst (Np.shape X)) by now rewrite Hshape.
  destruct (generated_columns_unset _ _ Hs) as [H9 H12].
  destruct (fit_zero_column X y epochs lr self 9 Hwf Hn1 Hyn H9)
    as [s9 [Hf9 [Hl9 Hw9]]].
  destruct (fit_zero_column X y epochs lr self 12 Hwf Hn1 Hyn H12)
    as [s12 [Hf12 [_ Hw12]]].
  assert (s12 = s9) by congruence. subst s12.
  exists (Arr2 X), y, g', s9. cbn [fit_ndarray].
  split; [exact Hgen|]. split; [exact Hf9|].
  split; [now rewrite Hl9, Hshape|]. split; assumption.
Qed.

(** Four samples, three epochs. *)
Lemma training_never_learns_at_or_port_witness :
  exists X y g' self',
    generate_synthetic_dataset 4 (fun i => i) = (X, y, g') /\
    fit_ndarray X y 3 (1 / 2) (init None 0) = (inr tt, self') /\
    length (weights self') = 15%nat /\
    nth 9 (weights self') 0 = 0 /\
    nth 12 (weights self') 0 = 0.
Proof.
  apply (training_never_learns_at_or_port 4 (fun i => i) 3 (1 / 2)
           (init None 0)).
  lia.
Defined.

(** X19: for every sequence of random draws, the training run of [main]
    (1000 samples asked for, 2000 epochs, learning rate 0.5) raises nothing
    and exports a record with 15 weights and the bias, which reads back as
    the trained model. *)
Theorem main_training_exports_model (g : Rng) :
  exists ws b,
    main_training g
    = (inr (PyDict [("weights", PyList (map PyFloat ws));
                    ("bias", PyFloat b)]),
       mk_Model ws b) /\
    length ws = 15%nat /\
    from_json (PyDict [("weights", PyList (map PyFloat ws));
                       ("bias", PyFloat b)])
    = Some (mk_Model ws b).
Proof.
  destruct (generated_dataset 1000 g ltac:(lia))
    as [X [y [g' [Hgen [Hwf [Hshape [Hy _]]]]]]].
  assert (Hn1 : (1 <= fst (Np.shape X))%nat).
  { rewrite Hshape. cbn [fst].
    assert (1 <= 1000 / 2)%Z by (apply Z.div_le_lower_bound; lia). lia. }
  assert (Hyn : length y = fst (Np.shape X)) by now rewrite Hshape.
  destruct (proj2 (proj2 (fit_outcomes X y 2000 (1 / 2) (init None 0)
                            Hwf Hn1))
              (or_introl Hyn)) as [self' [Hfit Hlen]].
  exists (weights self'), (bias self').
  unfold main_training. rewrite Hgen. cbv beta iota.
  unfold bind. cbn [fit_ndarray]. rewrite Hfit.
  destruct self' as [ws b]. cbn [weights bias] in *.
  split; [reflexivity|]. split; [now rewrite Hlen, Hshape|].
  unfold from_json. cbn [dict_lookup String.eqb Ascii.eqb Bool.eqb].
  now rewrite floats_of_map.
Qed.

(** ** What the scheme changes *)

Section Scheme.

Lemma host_of_clean (u1 u2 : string) :
  clean_url u1 = clean_url u2 ->
  host u1 = host u2 /\ path_and_query u1 = path_and_query u2 /\
  path u1 = path u2.
Proof.
  intros H.
  assert (He : host_end u1 = host_end u2) by (unfold host_end; now rewrite H).
  assert (Hh : host u1 = host u2) by (unfold host; now rewrite H, He).
  assert (Hp : path_and_query u1 = path_and_query u2)
    by (unfold path_and_query; now rewrite H, He).
  repeat split; try assumption. unfold path. now rewrite Hp.
Qed.

Lemma features_of_clean (u1 u2 : string) :
  clean_url u1 = clean_url u2 ->
  Py.contains "@" u1 = Py.contains "@" u2 ->
  Py.count u1 "." = Py.count u2 "." ->
  Py.count u1 "-" = Py.count u2 "-" ->
  forall i, i <> 0%nat -> i <> 4%nat ->
            nth i (extract_features u1) 0 = nth i (extract_features u2) 0.
Proof.
  intros Hc Hat Hdot Hdash i H0 H4.
  destruct (host_of_clean u1 u2 Hc) as [Hh [Hpq Hp]].
  rewrite !extract_features_unfold.
  unfold subdomain_count, query_count, has_port, tld.
  rewrite Hh, Hpq, Hp, Hat, Hdot, Hdash.
  do 15 (destruct i as [|i]; [try reflexivity; congruence|]).
  destruct i; reflexivity.
Qed.

End Scheme.

(** X20: writing [https://] instead of [http://] in front of the same
    remainder changes entry 4 from 0.0 to 1.0 and can change the length
    entry 0; the other thirteen entries are the same. *)
Theorem scheme_changes_two_entries (s : string) :
  nth 4 (extract_features ("https://" ++ s)) 0 = 1 /\
  nth 4 (extract_features ("http://" ++ s)) 0 = 0 /\
  (forall i, i <> 0%nat -> i <> 4%nat ->
             nth i (extract_features ("https://" ++ s)) 0
             = nth i (extract_features ("http://" ++ s)) 0).
Proof.
  split; [|split].
  - rewrite extract_features_unfold. cbn [nth]. apply flag_true.
    unfold protocol, Py.startswith. now rewrite prefix_app.
  - rewrite extract_features_unfold. cbn [nth]. apply flag_false.
    reflexivity.
  - apply features_of_clean.
    + now rewrite clean_url_https, clean_url_http.
    + cbn [append]. now rewrite !contains_char_cons.
    + cbn [append]. now rewrite !count_char_cons.
    + cbn [append]. now rewrite !count_char_cons.
Qed.

(** The host entry of one address under both schemes. *)
Lemma scheme_changes_two_entries_witness :
  nth 1 (extract_features "https://a.com/x") 0
  = nth 1 (extract_features "http://a.com/x") 0.
Proof.
  destruct (scheme_changes_two_entries "a.com/x") as [_ [_ H]].
  apply H; discriminate.
Defined.

(** ** The address pattern without the regular expression *)

Section Pattern.

Import Re.

Lemma fullmatch_never (s : string) : fullmatch Never s = false.
Proof. induction s; simpl; auto. Qed.

Lemma fullmatch_empty (s : string) : fullmatch Empty s = true <-> s = "".
Proof.
  destruct s as [|c s]; simpl; [tauto|].
  rewrite fullmatch_never. split; discriminate.
Qed.

Lemma fullmatch_class (p : ascii -> bool) (s : string) :
  fullmatch (Class p) s = true <-> exists c, s = String c "" /\ p c = true.
Proof.
  destruct s as [|c s]; simpl.
  - split; [discriminate|]. intros [c [H _]]. discriminate.
  - destruct (p c) eqn:E.
    + rewrite fullmatch_empty. split.
      * intros ->. now exists c.
      * intros [c' [H _]]. now injection H.
    + rewrite fullmatch_never. split; [discriminate|].
      intros [c' [H Hp]]. injection H as -> _. congruence.
Qed.

Lemma fullmatch_or (r1 r2 : regex) (s : string) :
  fullmatch (Or r1 r2) s = fullmatch r1 s || fullmatch r2 s.
Proof.
  revert r1 r2. induction s as [|c s IH]; intros r1 r2; simpl; auto.
Qed.

Lemma fullmatch_seq (s : string) : forall r1 r2,
  fullmatch (Seq r1 r2) s = true <->
  exists s1 s2, s = s1 ++ s2 /\ fullmatch r1 s1 = true
                /\ fullmatch r2 s2 = true.
Proof.
  induction s as [|c s IH]; intros r1 r2.
  - simpl. rewrite andb_true_iff. split.
    + intros [H1 H2]. now exists "", "".
    + intros [s1 [s2 [H [H1 H2]]]].
      destruct s1; [|discriminate]. destruct s2; [|discriminate]. auto.
  - cbn [fullmatch deriv]. destruct (nullable r1) eqn:En.
    + rewrite fullmatch_or, orb_true_iff, IH. split.
      * intros [[s1 [s2 [H [H1 H2]]]]|H].
        -- exists (String c s1), s2. subst s. auto.
        -- exists "", (String c s). auto.
      * intros [s1 [s2 [H [H1 H2]]]]. destruct s1 as [|c1 s1].
        -- right. simpl in H. subst s2. exact H2.
        -- left. injection H as -> ->. exists s1, s2. auto.
    + rewrite IH. split.
      * intros [s1 [s2 [H [H1 H2]]]].
        exists (String c s1), s2. subst s. auto.
      * intros [s1 [s2 [H [H1 H2]]]]. destruct s1 as [|c1 s1].
        -- simpl in H1. congruence.
        -- injection H as -> ->. exists s1, s2. auto.
Qed.

Lemma fullmatch_digit_group (s : string) :
  fullmatch (rep_1_3 (Class digit)) s = true <-> digit_group s.
Proof.
  unfold rep_1_3, digit_group. rewrite fullmatch_seq. split.
  - intros [s1 [s2 [-> [H1 H2]]]].
    apply fullmatch_class in H1. destruct H1 as [c1 [-> Hc1]].
    rewrite fullmatch_or, orb_true_iff, fullmatch_empty, fullmatch_seq in H2.
    destruct H2 as [->|[s3 [s4 [-> [H3 H4]]]]].
    + simpl. rewrite Hc1. split; [lia|reflexivity].
    + apply fullmatch_class in H3. destruct H3 as [c2 [-> Hc2]].
      rewrite fullmatch_or, orb_true_iff, fullmatch_empty, fullmatch_class
        in H4.
      destruct H4 as [->|[c3 [-> Hc3]]]; simpl; rewrite Hc1, Hc2, ?Hc3;
        split; try lia; reflexivity.
  - intros [[Hl1 Hl3] Hd].
    destruct s as [|c1 s]; [simpl in Hl1; lia|].
    cbn [Py.all_chars] in Hd. apply andb_true_iff in Hd.
    destruct Hd as [Hc1 Hd].
    exists (String c1 ""), s. split; [reflexivity|].
    split; [apply fullmatch_class; now exists c1|].
    rewrite fullmatch_or, orb_true_iff, fullmatch_empty.
    destruct s as [|c2 s]; [now left|right].
    cbn [Py.all_chars] in Hd. apply andb_true_iff in Hd.
    destruct Hd as [Hc2 Hd].
    apply fullmatch_seq. exists (String c2 ""), s. split; [reflexivity|].
    split; [apply fullmatch_class; now exists c2|].
    rewrite fullmatch_or, orb_true_iff, fullmatch_empty.
    destruct s as [|c3 s]; [now left|right].
    cbn [Py.all_chars] in Hd. apply andb_true_iff in Hd.
    destruct Hd as [Hc3 _].
    destruct s; [|simpl in Hl3; lia].
    apply fullmatch_class. now exists c3.
Qed.

Lemma fullmatch_dot (s : string) : fullmatch dot s = true <-> s = ".".
Proof.
  unfold dot. rewrite fullmatch_class. split.
  - intros [c [-> Hc]]. apply Ascii.eqb_eq in Hc. now subst c.
  - intros ->. now exists "."%char.
Qed.

Lemma fullmatch_dollar (s : string) :
  fullmatch dollar s = true <-> s = "" \/ s = String "010" "".
Proof.
  unfold dollar. rewrite fullmatch_or, orb_true_iff, fullmatch_empty,
    fullmatch_class.
  split; intros [H|H]; auto.
  - right. destruct H as [c [-> Hc]]. apply Ascii.eqb_eq in Hc. now subst c.
  - right. exists "010"%char. now split.
Qed.

Lemma ip_pattern_spec (s : string) :
  match_ ip_pattern s = true <->
  exists a b c d tail,
    digit_group a /\ digit_group b /\ digit_group c /\ digit_group d /\
    (tail = "" \/ tail = String "010" "") /\
    s = a ++ "." ++ b ++ "." ++ c ++ "." ++ d ++ tail.
Proof.
  unfold match_, ip_pattern. cbv zeta. split.
  - intros H.
    apply fullmatch_seq in H. destruct H as [a [r1 [-> [Ha H]]]].
    apply fullmatch_seq in H. destruct H as [p1 [r2 [-> [Hp1 H]]]].
    apply fullmatch_seq in H. destruct H as [b [r3 [-> [Hb H]]]].
    apply fullmatch_seq in H. destruct H as [p2 [r4 [-> [Hp2 H]]]].
    apply fullmatch_seq in H. destruct H as [c [r5 [-> [Hc H]]]].
    apply fullmatch_seq in H. destruct H as [p3 [r6 [-> [Hp3 H]]]].
    apply fullmatch_seq in H. destruct H as [d [tail [-> [Hd Ht]]]].
    apply fullmatch_dot in Hp1, Hp2, Hp3. subst p1 p2 p3.
    apply fullmatch_digit_group in Ha, Hb, Hc, Hd.
    apply fullmatch_dollar in Ht.
    exists a, b, c, d, tail.
    split; [assumption|]. split; [assumption|]. split; [assumption|].
    split; [assumption|]. split; [exact Ht|reflexivity].
  - intros [a [b [c [d [tail [Ha [Hb [Hc [Hd [Ht ->]]]]]]]]]].
    apply fullmatch_digit_group in Ha, Hb, Hc, Hd.
    apply fullmatch_dollar in Ht.
    apply fullmatch_seq. exists a. eexists. split; [reflexivity|].
    split; [assumption|].
    apply fullmatch_seq. exists ".". eexists. split; [reflexivity|].
    split; [now apply fullmatch_dot|].
    apply fullmatch_seq. exists b. eexists. split; [reflexivity|].
    split; [assumption|].
    apply fullmatch_seq. exists ".". eexists. split; [reflexivity|].
    split; [now apply fullmatch_dot|].
    apply fullmatch_seq. exists c. eexists. split; [reflexivity|].
    split; [assumption|].
    apply fullmatch_seq. exists ".". eexists. split; [reflexivity|].
    split; [now apply fullmatch_dot|].
    apply fullmatch_seq. exists d, tail. split; [reflexivity|].
    split; assumption.
Qed.

End Pattern.

(** X21: entry 5 is 1.0 exactly when the part of the host before its first
    colon is four groups of one to three decimal digits joined by dots,
    possibly followed by one newline; the groups are not checked against
    255. *)
Theorem ip_feature_is_dotted_quad (url : string) :
  nth 5 (extract_features url) 0 = 1 <->
  exists a b c d tail,
    digit_group a /\ digit_group b /\ digit_group c /\ digit_group d /\
    (tail = "" \/ tail = String "010" "") /\
    Py.first (Py.split (host url) ":")
    = a ++ "." ++ b ++ "." ++ c ++ "." ++ d ++ tail.
Proof.
  rewrite extract_features_unfold. cbn [nth]. rewrite flag_true.
  apply ip_pattern_spec.
Qed.

(** Groups above 255 still count as an address. *)
Lemma ip_feature_is_dotted_quad_witness :
  nth 5 (extract_features "http://999.999.999.999:80/") 0 = 1.
Proof.
  apply (proj2 (ip_feature_is_dotted_quad "http://999.999.999.999:80/")).
  exists "999", "999", "999", "999", "".
  repeat split; try (simpl; lia). now left.
Defined.

(** ** The first epoch in closed form *)

Section FirstEpoch.

Lemma vdot_cons (a : R) (r : list R) (b : R) (v : list R) :
  Np.vdot (a :: r) (b :: v) = a * b + Np.vdot r v.
Proof. reflexivity. Qed.







End FirstEpoch.



(** ** The order of the samples *)

Section SampleOrder.

Variables (w : list R) (b : R).

Lemma forward_rows (X : Np.ndarray2) :
  forward X w b = map (fun r => sigmoid (Np.vdot r w + b)) (Np.rows X).
Proof. unfold forward, Np.add_scalar. now rewrite !map_map. Qed.

Lemma column_gradient_as_sum (j : nat) (rows : list (list R)) :
  forall y,
    length rows = length y ->
    Np.vdot (map (fun r => nth j r 0) rows)
            (Np.zip_sub (map (fun r => sigmoid (Np.vdot r w + b)) rows) y)
    = Np.sum (map (fun ry => nth j (fst ry) 0
                             * (sigmoid (Np.vdot (fst ry) w + b) - snd ry))
                  (combine rows y)).
Proof.
  induction rows as [|r rows IH]; intros y Hy.
  - reflexivity.
  - destruct y as [|a y]; [discriminate|]. injection Hy as Hy.
    cbn [map combine].
    change (Np.zip_sub (sigmoid (Np.vdot r w + b)
                        :: map (fun r0 => sigmoid (Np.vdot r0 w + b)) rows)
                       (a :: y))
      with ((sigmoid (Np.vdot r w + b) - a)
            :: Np.zip_sub (map (fun r0 => sigmoid (Np.vdot r0 w + b)) rows) y).
    rewrite vdot_cons, (IH y Hy). reflexivity.
Qed.

Lemma error_sum_as_sum (rows : list (list R)) :
  forall y,
    length rows = length y ->
    Np.sum (Np.zip_sub (map (fun r => sigmoid (Np.vdot r w + b)) rows) y)
    = Np.sum (map (fun ry => sigmoid (Np.vdot (fst ry) w + b) - snd ry)
                  (combine rows y)).
Proof.
  induction rows as [|r rows IH]; intros y Hy.
  - reflexivity.
  - destruct y as [|a y]; [discriminate|]. injection Hy as Hy.
    cbn [map combine].
    change (Np.zip_sub (sigmoid (Np.vdot r w + b)
                        :: map (fun r0 => sigmoid (Np.vdot r0 w + b)) rows)
                       (a :: y))
      with ((sigmoid (Np.vdot r w + b) - a)
            :: Np.zip_sub (map (fun r0 => sigmoid (Np.vdot r0 w + b)) rows) y).
    change (Np.sum ((sigmoid (Np.vdot r w + b) - a)
                    :: Np.zip_sub
                         (map (fun r0 => sigmoid (Np.vdot r0 w + b)) rows) y))
      with (sigmoid (Np.vdot r w + b) - a
            + Np.sum (Np.zip_sub
                        (map (fun r0 => sigmoid (Np.vdot r0 w + b)) rows) y)).
    rewrite (IH y Hy). reflexivity.
Qed.

End SampleOrder.

Section Reordering.

Variables (X X' : Np.ndarray2) (y y' : list R) (lr : R).

Hypothesis Hwf : Np.wf X.
Hypothesis Hwf' : Np.wf X'.
Hypothesis Hshape : Np.shape X = Np.shape X'.
Hypothesis Hy : length y = fst (Np.shape X).
Hypothesis Hy' : length y' = fst (Np.shape X').
Hypothesis Hperm :
  Permutation (combine (Np.rows X) y) (combine (Np.rows X') y').

Lemma epoch_state_reordered (self : Model) :
  epoch_state X y lr self = epoch_state X' y' lr self.
Proof.
  destruct Hwf as [Hrows _]. destruct Hwf' as [Hrows' _].
  unfold epoch_state, descend. rewrite !forward_rows, <- Hshape. f_equal.
  - do 3 f_equal. unfold Np.T. cbn [Np.rows]. rewrite <- Hshape, !map_map.
    apply map_ext. intros j.
    rewrite !column_gradient_as_sum by congruence.
    apply sum_permutation, Permutation_map, Hperm.
  - do 3 f_equal. rewrite !error_sum_as_sum by congruence.
    apply sum_permutation, Permutation_map, Hperm.
Qed.

Lemma iter_epoch_state_reordered (e : nat) (self : Model) :
  Nat.iter e (epoch_state X y lr) self = Nat.iter e (epoch_state X' y' lr) self.
Proof.
  induction e as [|e IH]; [reflexivity|].
  rewrite !Nat.iter_succ, IH. apply epoch_state_reordered.
Qed.

End Reordering.

(** X23: the order of the training samples does not matter: two well-formed
    training sets of one shape, with at least one row, whose rows paired
    with their labels are a rearrangement of one another, leave the same
    weights and bias after the same number of epochs. *)
Theorem fit_sample_order_free (X X' : Np.ndarray2) (y y' : list R)
  (epochs : Z) (lr : R) (self other : Model) :
  Np.wf X -> Np.wf X' ->
  Np.shape X = Np.shape X' ->
  (1 <= fst (Np.shape X))%nat ->
  length y = fst (Np.shape X) ->
  length y' = fst (Np.shape X') ->
  Permutation (combine (Np.rows X) y) (combine (Np.rows X') y') ->
  fit X y epochs lr self = fit X' y' epochs lr other.
Proof.
  intros Hwf Hwf' Hshape Hn Hy Hy' Hperm.
  rewrite !fit_unfold.
  rewrite (for_range_runs X y lr Hwf Hn Hy) by apply length_zeros.
  rewrite (for_range_runs X' y' lr Hwf') by
    (try apply length_zeros; try assumption; now rewrite <- Hshape).
  rewrite <- Hshape.
  now rewrite (iter_epoch_state_reordered X X' y y' lr Hwf Hwf' Hshape Hy Hy'
                 Hperm).
Qed.

(** Two samples given in either order. *)
Lemma fit_sample_order_free_witness :
  fit (Np.mk_ndarray2 (2%nat, 2%nat) [[1; 0]; [0; 1]]) [0; 1] 3 (1 / 2)
      (init None 0)
  = fit (Np.mk_ndarray2 (2%nat, 2%nat) [[0; 1]; [1; 0]]) [1; 0] 3 (1 / 2)
        (init None 0).
Proof.
  apply fit_sample_order_free.
  - split; [reflexivity|]. repeat constructor.
  - split; [reflexivity|]. repeat constructor.
  - reflexivity.
  - simpl. lia.
  - reflexivity.
  - reflexivity.
  - apply perm_swap.
Defined.
